(** * Research-idea similarity checker: a shallow embedding of [streamlit_app.py]

    The development follows the script: Python values and the exceptions the
    code can raise, the keyword highlighter, the three source adapters with
    their [try]/[except] boundary, the per-function caches, and [main] with
    its aggregation filter and ranking.  Definitions come first; the lemmas
    about them form the second half of the file. *)

From Stdlib Require Import ZArith QArith Ascii String List.
From stdpp Require Import gmap strings list fin_maps sorting pretty.

#[local] Set Warnings "-register-all".

Local Open Scope string_scope.
Local Open Scope list_scope.
Local Open Scope Z_scope.

(** ** Python values, exceptions and results *)

(** The exceptions the modelled code can raise; all of them derive from
    Python's [Exception], so [except Exception] catches each one. *)
Inductive exn :=
| RequestException   (* network failure or timeout in [requests.get] *)
| HTTPError          (* [raise_for_status] on a 4xx/5xx reply *)
| JSONDecodeError    (* [response.json()] on a body that is not JSON *)
| ParseError         (* [ET.fromstring] on a body that is not XML *)
| KeyError
| TypeError
| AttributeError
| ValueError
| IndexError.

Inductive result (A : Type) :=
| Ok (a : A)
| Err (e : exn).
Arguments Ok {A} a.
Arguments Err {A} e.

#[global] Instance result_ret : MRet result := λ A a, Ok a.
#[global] Instance result_bind : MBind result := λ A B f m,
  match m with
  | Ok a => f a
  | Err e => Err e
  end.
#[global] Instance result_fmap : FMap result := λ A B f m,
  match m with
  | Ok a => Ok (f a)
  | Err e => Err e
  end.

(** A Python [float] is an IEEE-754 double.  The model keeps its 64 bits
    (sign, 11 bits of exponent, 52 bits of fraction); its value is an exact
    rational, an infinity or a NaN. *)
Inductive float_class :=
| Finite (q : Q)
| Infinite (negative : bool)
| NaN.

Definition float_value (bits : Z) : float_class :=
  let negative := Z.testbit bits 63 in
  let exponent := Z.land (Z.shiftr bits 52) 2047 in
  let fraction := Z.land bits (2 ^ 52 - 1) in
  if exponent =? 2047 then
    if fraction =? 0 then Infinite negative else NaN
  else
    let magnitude :=
      if exponent =? 0 then (inject_Z fraction * 2 ^ (-1074))%Q
      else (inject_Z (2 ^ 52 + fraction) * 2 ^ (exponent - 1075))%Q in
    Finite (if negative then (- magnitude)%Q else magnitude).

(** The values that flow through the script: decoded JSON ([null], [true]
    and [false], integers, fractional numbers, strings, arrays, objects) and
    the records the adapters build. *)
Inductive pyval :=
| PNone
| PBool (b : bool)
| PInt (z : Z)
| PFloat (bits : Z)
| PStr (s : string)
| PList (items : list pyval)
| PDict (fields : gmap string pyval).

(** Python truthiness: [None], [False], zero, [""] and empty containers are
    falsy; a float is falsy when it equals zero, so a NaN is truthy. *)
Definition truthy (v : pyval) : bool :=
  match v with
  | PNone => false
  | PBool b => b
  | PInt z => negb (z =? 0)
  | PFloat bits =>
      match float_value bits with
      | Finite q => negb (Qeq_bool q 0)
      | _ => true
      end
  | PStr s => negb (String.eqb s "")
  | PList items => match items with [] => false | _ => true end
  | PDict fields => negb (Nat.eqb (size fields) 0)
  end.

(** [v.get(k)] and [v.get(k, default)]: only a [dict] has the method. *)
Definition py_get_default (v : pyval) (k : string) (default_value : pyval)
  : result pyval :=
  match v with
  | PDict fields => Ok (default default_value (fields !! k))
  | _ => Err AttributeError
  end.

Definition py_get (v : pyval) (k : string) : result pyval :=
  py_get_default v k PNone.

(** [v[k]] with a string key: [KeyError] on a [dict] without the key,
    [TypeError] on anything that is not a [dict]. *)
Definition py_getitem (v : pyval) (k : string) : result pyval :=
  match v with
  | PDict fields =>
      match fields !! k with
      | Some x => Ok x
      | None => Err KeyError
      end
  | _ => Err TypeError
  end.

(** An integer against a float: Python compares the exact values; every
    comparison with a NaN is false. *)
Definition int_le_float (a : Z) (bits : Z) : bool :=
  match float_value bits with
  | Finite q => Qle_bool (inject_Z a) q
  | Infinite negative => negb negative
  | NaN => false
  end.

Definition float_le_int (bits : Z) (b : Z) : bool :=
  match float_value bits with
  | Finite q => Qle_bool q (inject_Z b)
  | Infinite negative => negative
  | NaN => false
  end.

(** [a <= v] and [v <= b] for an integer [a] or [b]: defined when [v] is a
    number ([bool] is a subclass of [int], with [False] 0 and [True] 1),
    [TypeError] otherwise. *)
Definition int_le_py (a : Z) (v : pyval) : result bool :=
  match v with
  | PBool c => Ok (a <=? Z.b2z c)
  | PInt y => Ok (a <=? y)
  | PFloat bits => Ok (int_le_float a bits)
  | _ => Err TypeError
  end.

Definition py_le_int (v : pyval) (b : Z) : result bool :=
  match v with
  | PBool c => Ok (Z.b2z c <=? b)
  | PInt y => Ok (y <=? b)
  | PFloat bits => Ok (float_le_int bits b)
  | _ => Err TypeError
  end.

(** ** Characters and strings

    A Python [str] is modelled by [string]; a character is a code point below
    256, and the character classes below are Python's Unicode tables on that
    range. *)

Definition in_range (lo hi : N) (c : ascii) : bool :=
  ((lo <=? N_of_ascii c) && (N_of_ascii c <=? hi))%N.

(** [\w] of the [re] module on [str] patterns: alphanumeric or underscore. *)
Definition is_word_char (c : ascii) : bool :=
  in_range 48 57 c || in_range 65 90 c || in_range 95 95 c ||
  in_range 97 122 c || in_range 170 170 c || in_range 178 179 c ||
  in_range 181 181 c || in_range 185 186 c || in_range 188 190 c ||
  in_range 192 214 c || in_range 216 246 c || in_range 248 255 c.

(** [str.isspace] on one character. *)
Definition is_space (c : ascii) : bool :=
  in_range 9 13 c || in_range 28 32 c || in_range 133 133 c ||
  in_range 160 160 c.

(** [str.lower] on one character. *)
Definition lower_char (c : ascii) : ascii :=
  if in_range 65 90 c || in_range 192 214 c || in_range 216 222 c
  then ascii_of_N (N_of_ascii c + 32)
  else c.

Fixpoint lower (s : string) : string :=
  match s with
  | EmptyString => EmptyString
  | String c s' => String (lower_char c) (lower s')
  end.

(** Two characters match under [re.IGNORECASE]. *)
Definition eqb_ci (a b : ascii) : bool :=
  Ascii.eqb (lower_char a) (lower_char b).

Definition head_char (s : string) : option ascii :=
  match s with
  | EmptyString => None
  | String c _ => Some c
  end.

(** The last character of [s], or [prev] when [s] is empty. *)
Fixpoint last_char (prev : option ascii) (s : string) : option ascii :=
  match s with
  | EmptyString => prev
  | String c s' => last_char (Some c) s'
  end.

(** [str.strip()]: drops leading and trailing whitespace. *)
Fixpoint lstrip (s : string) : string :=
  match s with
  | EmptyString => EmptyString
  | String c s' => if is_space c then lstrip s' else s
  end.

Fixpoint rstrip (s : string) : string :=
  match s with
  | EmptyString => EmptyString
  | String c s' =>
      match rstrip s' with
      | EmptyString => if is_space c then EmptyString else String c EmptyString
      | r => String c r
      end
  end.

Definition strip (s : string) : string := rstrip (lstrip s).

(** [str.split()] without arguments: the maximal runs of non-whitespace. *)
Fixpoint split (s : string) : list string :=
  match s with
  | EmptyString => []
  | String c s' =>
      if is_space c then split s'
      else
        match s' with
        | EmptyString => [String c EmptyString]
        | String d _ =>
            if is_space d then String c EmptyString :: split s'
            else
              match split s' with
              | w :: ws => String c w :: ws
              | [] => [String c EmptyString]
              end
        end
  end.

(** [text[:n]] *)
Fixpoint take_chars (n : nat) (s : string) : string :=
  match n, s with
  | S k, String c s' => String c (take_chars k s')
  | _, _ => EmptyString
  end.

(** [sep.join(items)] on a list of strings. *)
Fixpoint join (sep : string) (items : list string) : string :=
  match items with
  | [] => EmptyString
  | [x] => x
  | x :: rest => x +:+ sep +:+ join sep rest
  end.

(** *** [int(text)]

    After dropping the whitespace around the number: an optional sign, then
    decimal digits, single underscores allowed between digits.  CPython
    refuses more than 4300 digits.  The whitespace [int] drops is that of
    [str.isspace] without the separators U+001C to U+001F. *)
Definition is_int_space (c : ascii) : bool :=
  in_range 9 13 c || in_range 32 32 c || in_range 133 133 c ||
  in_range 160 160 c.

Fixpoint int_lstrip (s : string) : string :=
  match s with
  | EmptyString => EmptyString
  | String c s' => if is_int_space c then int_lstrip s' else s
  end.

Fixpoint int_rstrip (s : string) : string :=
  match s with
  | EmptyString => EmptyString
  | String c s' =>
      match int_rstrip s' with
      | EmptyString =>
          if is_int_space c then EmptyString else String c EmptyString
      | r => String c r
      end
  end.

Definition is_digit (c : ascii) : bool := in_range 48 57 c.

Definition digit_value (c : ascii) : Z := Z.of_N (N_of_ascii c) - 48.

Definition int_max_str_digits : nat := 4300.

Fixpoint parse_digits (acc : Z) (count : nat) (after_digit : bool)
    (s : string) : option Z :=
  match s with
  | EmptyString =>
      if after_digit && (count <=? int_max_str_digits)%nat
      then Some acc else None
  | String c s' =>
      if is_digit c then
        parse_digits (acc * 10 + digit_value c) (S count) true s'
      else if Ascii.eqb c "_" then
        if after_digit then parse_digits acc count false s' else None
      else None
  end.

Definition parse_int (s : string) : option Z :=
  match int_rstrip (int_lstrip s) with
  | String "-" digits => Z.opp <$> parse_digits 0 0 false digits
  | String "+" digits => parse_digits 0 0 false digits
  | digits => parse_digits 0 0 false digits
  end.

(** [int(x)] where [x] is an element text: [None] raises [TypeError], a
    string that is not a number raises [ValueError]. *)
Definition py_int (text : option string) : result Z :=
  match text with
  | None => Err TypeError
  | Some s =>
      match parse_int s with
      | Some z => Ok z
      | None => Err ValueError
      end
  end.

(** ** The keyword highlighter (lines 66-69) *)

Definition mark_open : string := "<span style='background-color: #ffff66'><b>".
Definition mark_close : string := "</b></span>".

(** The replacement template with [\1] filled in. *)
Definition mark (m : string) : string := mark_open +:+ m +:+ mark_close.

Definition is_word_opt (o : option ascii) : bool :=
  match o with
  | Some c => is_word_char c
  | None => false
  end.

(** [\b] between the character before a position and the one after it; the
    ends of the text count as non-word characters. *)
Definition word_boundary (prev next : option ascii) : bool :=
  xorb (is_word_opt prev) (is_word_opt next).

(** The escaped keyword is a literal: it matches, ignoring case, a prefix of
    [s] of its own length.  Returns the matched text and what follows. *)
Fixpoint match_literal (word s : string) : option (string * string) :=
  match word, s with
  | EmptyString, _ => Some (EmptyString, s)
  | String a word', String c s' =>
      if eqb_ci a c then
        match match_literal word' s' with
        | Some (m, r) => Some (String c m, r)
        | None => None
        end
      else None
  | String _ _, EmptyString => None
  end.

(** A match of [(?i)\b(word)\b] starting at the current position, where
    [prev] is the character just before it. *)
Definition match_at (word : string) (prev : option ascii) (s : string)
  : option string :=
  if word_boundary prev (head_char s) then
    match match_literal word s with
    | Some (m, r) =>
        if word_boundary (last_char prev m) (head_char r) then Some m else None
    | None => None
    end
  else None.

(** [re.sub] scanning left to right for non-overlapping matches.  [skip] is
    the number of characters still covered by the last match; an empty match
    (possible only for an empty keyword) is replaced and the scan moves on by
    one character. *)
Fixpoint re_sub_from (word : string) (skip : nat) (prev : option ascii)
    (s : string) : string :=
  match s with
  | EmptyString =>
      match skip, match_at word prev EmptyString with
      | O, Some m => mark m
      | _, _ => EmptyString
      end
  | String c s' =>
      match skip with
      | S k => re_sub_from word k (Some c) s'
      | O =>
          match match_at word prev s with
          | Some m =>
              mark m +:+
              match String.length m with
              | O => String c (re_sub_from word 0 (Some c) s')
              | S k => re_sub_from word k (Some c) s'
              end
          | None => String c (re_sub_from word 0 (Some c) s')
          end
      end
  end.

(** [re.sub(rf"(?i)\b({re.escape(word)})\b", r"<span ...><b>\1</b></span>", text)] *)
Definition re_sub_word (word text : string) : string :=
  re_sub_from word 0 None text.

(** [for word in keywords: text = re.sub(...)]; [return text]. *)
Definition highlight_keywords (text : string) (keywords : list string)
  : string :=
  fold_left (λ text word, re_sub_word word text) keywords text.

(** ** Element trees

    What [xml.etree.ElementTree] gives after parsing: a tag, the text before
    the first child ([None] when there is none) and the children in document
    order.  Attributes and tails are not read by the script. *)
Inductive element :=
| Element (tag : string) (text : option string) (children : list element).

Definition tag_of (e : element) : string :=
  match e with Element t _ _ => t end.

Definition text_of (e : element) : option string :=
  match e with Element _ t _ => t end.

Definition children_of (e : element) : list element :=
  match e with Element _ _ cs => cs end.

(** [e.iter()]: the element and all its descendants, in document order. *)
Fixpoint iter (e : element) : list element :=
  match e with
  | Element _ _ cs => e :: flat_map iter cs
  end.

Definition has_tag (t : string) (e : element) : bool :=
  String.eqb (tag_of e) t.

(** The path step [tag]: the children of [e] with that tag. *)
Definition children_with_tag (t : string) (e : element) : list element :=
  List.filter (has_tag t) (children_of e).

(** The path step [.//tag]: the proper descendants of [e] with that tag. *)
Definition descendants_with_tag (t : string) (e : element) : list element :=
  List.filter (has_tag t) (flat_map iter (children_of e)).

(** [e.findall(".//tag")] and [e.find(".//tag")]. *)
Definition findall_descendant (t : string) (e : element) : list element :=
  descendants_with_tag t e.

Definition find_descendant (t : string) (e : element) : option element :=
  head (findall_descendant t e).

(** [e.find(".//parent/child")]: the first [child] element directly under
    a [parent] descendant. *)
Definition find_descendant_child (parent child : string) (e : element)
  : option element :=
  head (flat_map (children_with_tag child) (descendants_with_tag parent e)).

(** [e.findall("atom:name", ns)] and [e.find("atom:name", ns)]: children
    whose tag is the name qualified with the Atom namespace. *)
Definition atom (name : string) : string :=
  "{http://www.w3.org/2005/Atom}" +:+ name.

Definition findall_atom (name : string) (e : element) : list element :=
  children_with_tag (atom name) e.

Definition find_atom (name : string) (e : element) : option element :=
  head (findall_atom name e).

(** [elem.text] where [elem] may be [None]: [AttributeError] in that case. *)
Definition text_attr (elem : option element) : result (option string) :=
  match elem with
  | Some e => Ok (text_of e)
  | None => Err AttributeError
  end.

(** [text.strip()] where [text] may be [None]. *)
Definition strip_method (text : option string) : result string :=
  match text with
  | Some s => Ok (strip s)
  | None => Err AttributeError
  end.

(** An element text as a Python value. *)
Definition py_text (text : option string) : pyval :=
  match text with
  | Some s => PStr s
  | None => PNone
  end.

(** ** The outside world and the session

    Everything the script does not compute itself is a field of [world]: the
    replies of the three services, the decoders of the libraries, and the
    embedding model.  A reply may depend on how many requests were made
    before it, and an encoding on how many model runs came before, so nothing
    here assumes that the services or the model answer the same way twice. *)

Abbreviation vec := (list Q).

Record request := {
  req_url : string;
  req_params : list (string * pyval) }.

Record response := {
  status_code : Z;
  body : string }.

Record world := {
  http_get : nat → request → result response;   (* [requests.get(..., timeout=10)] *)
  json_loads : string → option pyval;           (* [response.json()] *)
  xml_fromstring : string → option element;     (* [ET.fromstring] *)
  strptime_year : string → option Z;            (* [datetime.strptime(s, "%Y-%m-%dT%H:%M:%SZ").year] *)
  py_repr : pyval → string;                     (* [repr] of a float, list or dict *)
  encode : nat → list string → list vec;        (* [model.encode] *)
  cos_sim : vec → vec → Q }.                    (* [util.pytorch_cos_sim(a, b).item()] *)

(** The state of one Streamlit session: the requests sent and the model runs
    so far, and the four [st.cache_data] caches, keyed by the arguments of
    the cached function. *)
Record session := {
  net_log : list request;
  model_log : list (list string);
  cache_semantic_scholar : gmap (string * Z) pyval;
  cache_arxiv : gmap (string * Z) (list pyval);
  cache_pubmed : gmap (string * Z) (list pyval);
  cache_embed : gmap (list string) (list vec) }.

Definition log_request (req : request) (s : session) : session :=
  {| net_log := net_log s ++ [req];
     model_log := model_log s;
     cache_semantic_scholar := cache_semantic_scholar s;
     cache_arxiv := cache_arxiv s;
     cache_pubmed := cache_pubmed s;
     cache_embed := cache_embed s |}.

Definition log_model_run (texts : list string) (s : session) : session :=
  {| net_log := net_log s;
     model_log := model_log s ++ [texts];
     cache_semantic_scholar := cache_semantic_scholar s;
     cache_arxiv := cache_arxiv s;
     cache_pubmed := cache_pubmed s;
     cache_embed := cache_embed s |}.

Definition set_cache_semantic_scholar (c : gmap (string * Z) pyval)
    (s : session) : session :=
  {| net_log := net_log s;
     model_log := model_log s;
     cache_semantic_scholar := c;
     cache_arxiv := cache_arxiv s;
     cache_pubmed := cache_pubmed s;
     cache_embed := cache_embed s |}.

Definition set_cache_arxiv (c : gmap (string * Z) (list pyval))
    (s : session) : session :=
  {| net_log := net_log s;
     model_log := model_log s;
     cache_semantic_scholar := cache_semantic_scholar s;
     cache_arxiv := c;
     cache_pubmed := cache_pubmed s;
     cache_embed := cache_embed s |}.

Definition set_cache_pubmed (c : gmap (string * Z) (list pyval))
    (s : session) : session :=
  {| net_log := net_log s;
     model_log := model_log s;
     cache_semantic_scholar := cache_semantic_scholar s;
     cache_arxiv := cache_arxiv s;
     cache_pubmed := c;
     cache_embed := cache_embed s |}.

Definition set_cache_embed (c : gmap (list string) (list vec))
    (s : session) : session :=
  {| net_log := net_log s;
     model_log := model_log s;
     cache_semantic_scholar := cache_semantic_scholar s;
     cache_arxiv := cache_arxiv s;
     cache_pubmed := cache_pubmed s;
     cache_embed := c |}.

Definition empty_session : session :=
  {| net_log := []; model_log := [];
     cache_semantic_scholar := ∅; cache_arxiv := ∅;
     cache_pubmed := ∅; cache_embed := ∅ |}.

(** Code that may raise and that reads and updates the session. *)
Definition M (A : Type) : Type := session → result A * session.

#[global] Instance M_ret : MRet M := λ A a s, (Ok a, s).
#[global] Instance M_bind : MBind M := λ A B f m s,
  match m s with
  | (Ok a, s') => f a s'
  | (Err e, s') => (Err e, s')
  end.

Definition lift {A} (r : result A) : M A := λ s, (r, s).

(** [try: body / except Exception as e: handler] *)
Definition try_except {A} (body : M A) (handler : exn → M A) : M A := λ s,
  match body s with
  | (Ok a, s') => (Ok a, s')
  | (Err e, s') => handler e s'
  end.

(** [@st.cache_data]: a call whose arguments are in the cache returns the
    stored value and does not run the function; otherwise the function runs
    and, when it returns, its value is stored under the arguments. *)
Definition cached {K V} `{Countable K}
    (get : session → gmap K V) (set : gmap K V → session → session)
    (key : K) (f : M V) : M V := λ s,
  match get s !! key with
  | Some v => (Ok v, s)
  | None =>
      match f s with
      | (Ok v, s') => (Ok v, set (<[key := v]> (get s')) s')
      | (Err e, s') => (Err e, s')
      end
  end.

Definition requests_get (w : world) (req : request) : M response := λ s,
  (http_get w (length (net_log s)) req, log_request req s).

(** [response.raise_for_status()] *)
Definition raise_for_status (r : response) : result unit :=
  if (400 <=? status_code r) && (status_code r <? 600)
  then Err HTTPError else Ok ().

Definition response_json (w : world) (r : response) : result pyval :=
  match json_loads w (body r) with
  | Some v => Ok v
  | None => Err JSONDecodeError
  end.

Definition fromstring (w : world) (text : string) : result element :=
  match xml_fromstring w text with
  | Some root => Ok root
  | None => Err ParseError
  end.

(** A comprehension or loop whose body may raise: the first exception ends
    it. *)
Fixpoint mapM {A B} (f : A → result B) (l : list A) : result (list B) :=
  match l with
  | [] => Ok []
  | x :: rest =>
      y ← f x;
      ys ← mapM f rest;
      Ok (y :: ys)
  end.

(** [items[i]] *)
Definition index {A} (items : list A) (i : nat) : result A :=
  match items !! i with
  | Some x => Ok x
  | None => Err IndexError
  end.

(** ** Semantic Scholar (lines 71-81) *)

Definition search_semantic_scholar_try (w : world) (query : string)
    (limit : Z) : M pyval :=
  response ← requests_get w
    {| req_url := "https://api.semanticscholar.org/graph/v1/paper/search";
       req_params := [("query", PStr query); ("limit", PInt limit);
                      ("fields", PStr "title,abstract,url,year")] |};
  lift (_ ← raise_for_status response;
        reply ← response_json w response;
        py_get_default reply "data" (PList [])).

Definition search_semantic_scholar_fn (w : world) (query : string)
    (limit : Z) : M pyval :=
  try_except (search_semantic_scholar_try w query limit)
             (λ _, mret (PList [])).

Definition search_semantic_scholar (w : world) (query : string) (limit : Z)
  : M pyval :=
  cached cache_semantic_scholar set_cache_semantic_scholar (query, limit)
         (search_semantic_scholar_fn w query limit).

(** ** arXiv (lines 83-102) *)

Definition py_strptime_year (w : world) (published : option string)
  : result Z :=
  match published with
  | None => Err TypeError
  | Some s =>
      match strptime_year w s with
      | Some y => Ok y
      | None => Err ValueError
      end
  end.

(** The body of the loop over the feed entries. *)
Definition arxiv_entry (w : world) (entry : element) : result pyval :=
  title ← text_attr (find_atom "title" entry) ≫= strip_method;
  abstract ← text_attr (find_atom "summary" entry) ≫= strip_method;
  url ← text_attr (find_atom "id" entry) ≫= strip_method;
  published ← text_attr (find_atom "published" entry);
  year ← py_strptime_year w published;
  Ok (PDict {[ "title" := PStr title; "abstract" := PStr abstract;
               "url" := PStr url; "year" := PInt year ]}).

Definition search_arxiv_try (w : world) (query : string) (max_results : Z)
  : M (list pyval) :=
  response ← requests_get w
    {| req_url := "http://export.arxiv.org/api/query?search_query=all:"
                  +:+ query +:+ "&start=0&max_results=" +:+ pretty max_results;
       req_params := [] |};
  lift (_ ← raise_for_status response;
        root ← fromstring w (body response);
        mapM (arxiv_entry w) (findall_atom "entry" root)).

Definition search_arxiv_fn (w : world) (query : string) (max_results : Z)
  : M (list pyval) :=
  try_except (search_arxiv_try w query max_results) (λ _, mret []).

Definition search_arxiv (w : world) (query : string) (max_results : Z)
  : M (list pyval) :=
  cached cache_arxiv set_cache_arxiv (query, max_results)
         (search_arxiv_fn w query max_results).

(** ** PubMed (lines 104-138) *)

Definition base_url : string := "https://eutils.ncbi.nlm.nih.gov/entrez/eutils/".

(** [",".join(ids)]: [ids] has to be an iterable of strings.  A [dict]
    iterates over its keys; the map does not record their insertion order,
    so for a dict the keys are joined in the order of the map. *)
Definition py_str_item (v : pyval) : result string :=
  match v with
  | PStr s => Ok s
  | _ => Err TypeError
  end.

Definition py_join (sep : string) (ids : pyval) : result string :=
  match ids with
  | PList items => join sep <$> mapM py_str_item items
  | PStr s => Ok (join sep ((λ c, String c EmptyString) <$> list_ascii_of_string s))
  | PDict fields => Ok (join sep (fst <$> map_to_list fields))
  | _ => Err TypeError
  end.

(** Lines 110-113: the id search. *)
Definition pubmed_esearch (w : world) (query : string) (max_results : Z)
  : M pyval :=
  search_resp ← requests_get w
    {| req_url := base_url +:+ "esearch.fcgi";
       req_params := [("db", PStr "pubmed"); ("term", PStr query);
                      ("retmax", PInt max_results);
                      ("retmode", PStr "json")] |};
  lift (_ ← raise_for_status search_resp;
        reply ← response_json w search_resp;
        esearchresult ← py_getitem reply "esearchresult";
        py_getitem esearchresult "idlist").

(** Lines 116-119: the fetch by id and the parse of its reply. *)
Definition pubmed_efetch (w : world) (ids : pyval) : M element :=
  id ← lift (py_join "," ids);
  fetch_resp ← requests_get w
    {| req_url := base_url +:+ "efetch.fcgi";
       req_params := [("db", PStr "pubmed"); ("id", PStr id);
                      ("retmode", PStr "xml")] |};
  lift (_ ← raise_for_status fetch_resp;
        fromstring w (body fetch_resp)).

(** [f"https://pubmed.ncbi.nlm.nih.gov/{pmid}/"], where [pmid] is an element
    text and [None] is written as [None]. *)
Definition pubmed_url (pmid : option string) : string :=
  "https://pubmed.ncbi.nlm.nih.gov/" +:+ default "None" pmid +:+ "/".

(** Lines 122-134, the body of the loop over the articles: the record to
    append, or [None] when the article is skipped by [continue]. *)
Definition pubmed_article (article : element) : result (option pyval) :=
  let title_elem := find_descendant "ArticleTitle" article in
  let abstract_elem := find_descendant_child "Abstract" "AbstractText" article in
  let date_elem := find_descendant_child "PubDate" "Year" article in
  year ← match date_elem with
         | Some e => PInt <$> py_int (text_of e)
         | None => Ok PNone
         end;
  pmid ← text_attr (find_descendant "PMID" article);
  match title_elem, abstract_elem with
  | Some t, Some a =>
      Ok (Some (PDict {[ "title" := py_text (text_of t);
                         "abstract" := py_text (text_of a);
                         "url" := PStr (pubmed_url pmid);
                         "year" := year ]}))
  | _, _ => Ok None
  end.

(** Lines 120-135: the loop. *)
Fixpoint pubmed_loop (articles : list element) : result (list pyval) :=
  match articles with
  | [] => Ok []
  | article :: rest =>
      r ← pubmed_article article;
      papers ← pubmed_loop rest;
      Ok (match r with
          | Some p => p :: papers
          | None => papers
          end)
  end.

Definition pubmed_papers (root : element) : result (list pyval) :=
  pubmed_loop (findall_descendant "PubmedArticle" root).

Definition search_pubmed_try (w : world) (query : string) (max_results : Z)
  : M (list pyval) :=
  ids ← pubmed_esearch w query max_results;
  if negb (truthy ids) then mret []
  else
    root ← pubmed_efetch w ids;
    lift (pubmed_papers root).

Definition search_pubmed_fn (w : world) (query : string) (max_results : Z)
  : M (list pyval) :=
  try_except (search_pubmed_try w query max_results) (λ _, mret []).

Definition search_pubmed (w : world) (query : string) (max_results : Z)
  : M (list pyval) :=
  cached cache_pubmed set_cache_pubmed (query, max_results)
         (search_pubmed_fn w query max_results).

(** ** The embedder (lines 140-142) *)

Definition embed_texts_fn (w : world) (texts : list string) : M (list vec) :=
  λ s, (Ok (encode w (length (model_log s)) texts), log_model_run texts s).

Definition embed_texts (w : world) (texts : list string) : M (list vec) :=
  cached cache_embed set_cache_embed texts (embed_texts_fn w texts).

(** ** [main] (lines 144-201) *)

(** *** The aggregation filter (lines 159-160) *)

(** [ss_papers + arxiv_papers + pubmed_papers].  The last two are lists built
    by the adapters; the first is whatever the service stored under [data],
    and [+] raises [TypeError] unless it is a list as well. *)
Definition concat_papers (ss_papers : pyval)
    (arxiv_papers pubmed_papers : list pyval) : result (list pyval) :=
  match ss_papers with
  | PList items => Ok (items ++ arxiv_papers ++ pubmed_papers)
  | _ => Err TypeError
  end.

(** The condition of the comprehension:
    [p.get("abstract") and p.get("year") and start_year <= p["year"] <= end_year].
    [and] short-circuits, and the chained comparison evaluates its second
    half only when the first holds. *)
Definition keep_paper (start_year end_year : Z) (p : pyval) : result bool :=
  abstract ← py_get p "abstract";
  if truthy abstract then
    year ← py_get p "year";
    if truthy year then
      y ← py_getitem p "year";
      lo ← int_le_py start_year y;
      if (lo : bool) then py_le_int y end_year else Ok false
    else Ok false
  else Ok false.

(** [[p for p in all_papers if ...]], evaluated left to right; the first
    exception aborts the comprehension. *)
Fixpoint filtered_papers (start_year end_year : Z) (all_papers : list pyval)
  : result (list pyval) :=
  match all_papers with
  | [] => Ok []
  | p :: rest =>
      b ← keep_paper start_year end_year p;
      out ← filtered_papers start_year end_year rest;
      Ok (if (b : bool) then p :: out else out)
  end.

(** *** Texts to embed (line 166) *)

(** [str(v)], as an f-string formats a value. *)
Definition py_str (w : world) (v : pyval) : string :=
  match v with
  | PNone => "None"
  | PBool b => if b then "True" else "False"
  | PInt z => pretty z
  | PStr s => s
  | _ => py_repr w v
  end.

(** [f"{p['title']}. {p['abstract']}"] *)
Definition paper_text (w : world) (p : pyval) : result string :=
  title ← py_getitem p "title";
  abstract ← py_getitem p "abstract";
  Ok (py_str w title +:+ ". " +:+ py_str w abstract).
(** *** Ranking (lines 169-174) *)

(** A similarity is the Python float that [.item()] returns; the model keeps
    its value as a rational, which covers every finite float and orders them
    as [<] does. *)
Abbreviation scored := (Q * pyval)%type.

(** [list.sort(key=key, reverse=reverse)].  CPython's sort compares keys with
    [<] only and is stable; with [reverse=True] it reverses the list, sorts
    it ascending, and reverses the result, so that equal keys keep their
    original order.  The ascending pass is modelled by a stable insertion
    sort that uses the same comparison. *)
Section ListSort.
Context {A : Type} (key : A → Q).

Definition key_lt (a b : A) : bool := negb (Qle_bool (key b) (key a)).

Definition key_le (a b : A) : Prop := (key a <= key b)%Q.

Fixpoint insert_stable (x : A) (l : list A) : list A :=
  match l with
  | [] => [x]
  | y :: l' => if key_lt y x then y :: insert_stable x l' else x :: l
  end.

Fixpoint sort_ascending (l : list A) : list A :=
  match l with
  | [] => []
  | x :: l' => insert_stable x (sort_ascending l')
  end.

Definition list_sort (reverse : bool) (l : list A) : list A :=
  if reverse then rev (sort_ascending (rev l)) else sort_ascending l.
End ListSort.

(** The scoring loop: for each paper in order, the cosine of the idea
    embedding and the paper's embedding, [paper_embeddings[idx]]. *)
Fixpoint score_papers (w : world) (idea_embedding : vec)
    (paper_embeddings : list vec) (idx : nat) (papers : list pyval)
  : result (list scored) :=
  match papers with
  | [] => Ok []
  | paper :: rest =>
      embedding ← index paper_embeddings idx;
      scored_papers ← score_papers w idea_embedding paper_embeddings
                                   (S idx) rest;
      Ok ((cos_sim w idea_embedding embedding, paper) :: scored_papers)
  end.

(** [scored_papers.sort(key=lambda x: x[0], reverse=True)]. *)
Definition rank_papers (scored_papers : list scored) : list scored :=
  list_sort fst true scored_papers.

(** *** Display (lines 178-189) *)

Record entry := {
  entry_url : string;
  entry_title : string;
  entry_year : string;
  entry_color : string;
  entry_similarity : Q;
  entry_abstract : string }.

Definition tier_color (similarity : Q) : string :=
  if Qle_bool (3 # 4) similarity then "green"
  else if Qle_bool (2 # 5) similarity then "orange"
  else "red".

(** [highlight_keywords(value, keywords)] on a value that need not be a
    string: without keywords the loop body never runs; with keywords
    [re.sub] raises [TypeError] on anything but a string. *)
Definition highlight_value (value : pyval) (keywords : list string)
  : result pyval :=
  match keywords with
  | [] => Ok value
  | _ =>
      match value with
      | PStr text => Ok (PStr (highlight_keywords text keywords))
      | _ => Err TypeError
      end
  end.

(** [value[:1000]] *)
Definition slice_1000 (value : pyval) : result pyval :=
  match value with
  | PStr text => Ok (PStr (take_chars 1000 text))
  | PList items => Ok (PList (take 1000 items))
  | _ => Err TypeError
  end.

Definition render_entry (w : world) (query_keywords : list string)
    (item : scored) : result entry :=
  let '(similarity, paper) := item in
  title ← py_getitem paper "title";
  highlighted_title ← highlight_value title query_keywords;
  abstract ← py_getitem paper "abstract";
  highlighted_abstract ← highlight_value abstract query_keywords;
  url ← py_getitem paper "url";
  year ← py_getitem paper "year";
  shown_abstract ← slice_1000 highlighted_abstract;
  Ok {| entry_url := py_str w url;
        entry_title := py_str w highlighted_title;
        entry_year := py_str w year;
        entry_color := tier_color similarity;
        entry_similarity := similarity;
        entry_abstract := py_str w shown_abstract +:+ "..." |}.

(** *** The whole run *)

(** What one run of [main] leaves on the page: nothing (empty input), the
    warning for a blank idea, the warning that no paper is in the year
    range, or the ranked papers with their display entries; the table for
    download has one row per ranked paper, in this order. *)
Inductive outcome :=
| NoInput
| InvalidIdea
| NoPapers
| Shown (scored_papers : list scored) (entries : list entry).

(** The ranked list an outcome carries. *)
Definition ranked_of (o : outcome) : list scored :=
  match o with
  | Shown scored_papers _ => scored_papers
  | _ => []
  end.

Definition main (w : world) (user_input : string)
    (start_year end_year num_results : Z) : M outcome :=
  if negb (truthy (PStr user_input)) then mret NoInput
  else
    let query := strip user_input in
    if negb (truthy (PStr query)) then mret InvalidIdea
    else
      let query_keywords := split (lower query) in
      idea_embeddings ← embed_texts w [query];
      idea_embedding ← lift (index idea_embeddings 0);
      ss_papers ← search_semantic_scholar w query num_results;
      arxiv_papers ← search_arxiv w query num_results;
      pubmed_papers ← search_pubmed w query num_results;
      all_papers ← lift (concat_papers ss_papers arxiv_papers pubmed_papers);
      filtered ← lift (filtered_papers start_year end_year all_papers);
      match filtered with
      | [] => mret NoPapers
      | _ =>
          paper_texts ← lift (mapM (paper_text w) filtered);
          paper_embeddings ← embed_texts w paper_texts;
          scored_papers ← lift (score_papers w idea_embedding
                                              paper_embeddings 0 filtered);
          let scored_papers := rank_papers scored_papers in
          entries ← lift (mapM (render_entry w query_keywords) scored_papers);
          mret (Shown scored_papers entries)
      end.

(** *** Whole-word highlighting, as the specification words it

    The text is cut into maximal runs of word characters and single
    separator characters; a whole-word occurrence of a keyword is a run that
    equals the keyword up to case.  [highlight_whole_words] wraps exactly
    those runs.  It is the reference the code is compared with, not a
    translation of it. *)

Inductive token :=
| Word (r : string)
| Sep (c : ascii).

Fixpoint tokens (s : string) : list token :=
  match s with
  | EmptyString => []
  | String c s' =>
      if is_word_char c then
        match tokens s' with
        | Word r :: ts => Word (String c r) :: ts
        | ts => Word (String c EmptyString) :: ts
        end
      else Sep c :: tokens s'
  end.

(** Equality up to case. *)
Definition eq_ci (a b : string) : bool := String.eqb (lower a) (lower b).

(** Writes a token list back as text, with [f] applied to every word. *)
Fixpoint render_with (f : string → string) (ts : list token) : string :=
  match ts with
  | [] => EmptyString
  | Word r :: ts' => f r +:+ render_with f ts'
  | Sep c :: ts' => String c (render_with f ts')
  end.

Definition highlight_whole_words (text : string) (keywords : list string)
  : string :=
  render_with (λ r, if existsb (eq_ci r) keywords then mark r else r)
              (tokens text).





(** Token lists that come from a text, and what a substitution pass does
    to them; used to relate the scanner to the reference. *)



Abbreviation render := (render_with (λ r, r)).




(** The year of a record is a number between the two bounds, both
    included: an [int], a [bool] (0 or 1 to Python) or a finite [float]. *)
Definition year_between (start_year end_year : Z) (year : pyval) : Prop :=
  match year with
  | PBool b => start_year ≤ Z.b2z b ≤ end_year
  | PInt y => start_year ≤ y ≤ end_year
  | PFloat bits =>
      ∃ q, float_value bits = Finite q ∧
           (inject_Z start_year <= q)%Q ∧ (q <= inject_Z end_year)%Q
  | _ => False
  end.

(** A record as the data model has it: a [dict] whose year is absent, [None]
    or a number. *)
Definition year_typed (p : pyval) : Prop :=
  match p with
  | PDict fields =>
      match fields !! "year" with
      | None | Some PNone | Some (PBool _) | Some (PInt _)
      | Some (PFloat _) => True
      | _ => False
      end
  | _ => False
  end.

Definition sample_paper (abstract : pyval) (year : pyval) : pyval :=
  PDict {[ "title" := PStr "Deep Learning for X"; "abstract" := abstract;
           "url" := PStr "https://example.org/1"; "year" := year ]}.

(** An article the loop body can read without an exception: it has a [PMID]
    element, and its [PubDate/Year], when present, holds an integer. *)
Definition readable (article : element) : bool :=
  match find_descendant "PMID" article with
  | Some _ =>
      match find_descendant_child "PubDate" "Year" article with
      | Some e => match py_int (text_of e) with Ok _ => true | Err _ => false end
      | None => true
      end
  | None => false
  end.

(** An article with both an [ArticleTitle] and an [Abstract/AbstractText]. *)
Definition complete (article : element) : bool :=
  match find_descendant "ArticleTitle" article,
        find_descendant_child "Abstract" "AbstractText" article with
  | Some _, Some _ => true
  | _, _ => false
  end.

(** The record the loop body yields for an article, [None] when it yields
    none. *)
Definition record_of (article : element) : option pyval :=
  match pubmed_article article with
  | Ok r => r
  | Err _ => None
  end.

Definition good_article : element :=
  Element "PubmedArticle" None
    [Element "MedlineCitation" None
       [Element "PMID" (Some "12345") [];
        Element "Article" None
          [Element "Journal" None
             [Element "JournalIssue" None
                [Element "PubDate" None [Element "Year" (Some "2021") []]]];
           Element "ArticleTitle" (Some "Deep Learning for X") [];
           Element "Abstract" None
             [Element "AbstractText" (Some "We study deep learning.") []]]]].

(** No title and no [PMID]. *)
Definition bad_article : element :=
  Element "PubmedArticle" None
    [Element "MedlineCitation" None
       [Element "Article" None
          [Element "Abstract" None
             [Element "AbstractText" (Some "No title, no id.") []]]]].

(** No title, but a [PMID]. *)
Definition untitled_article : element :=
  Element "PubmedArticle" None
    [Element "MedlineCitation" None
       [Element "PMID" (Some "777") [];
        Element "Article" None
          [Element "Abstract" None
             [Element "AbstractText" (Some "No title.") []]]]].

Definition article_set (articles : list element) : element :=
  Element "PubmedArticleSet" None articles.

(** A world in which every request times out and nothing decodes. *)
Definition offline_world : world :=
  {| http_get := λ _ _, Err RequestException;
     json_loads := λ _, None;
     xml_fromstring := λ _, None;
     strptime_year := λ _, None;
     py_repr := λ _, "";
     encode := λ _ texts, (λ _, [1%Q]) <$> texts;
     cos_sim := λ _ _, 1%Q |}.

(** A world in which PubMed answers: the id search finds two ids and the
    fetch parses to [root]; the other two services answer with nothing. *)
Definition pubmed_world (root : element) : world :=
  {| http_get := λ _ _, Ok {| status_code := 200; body := "" |};
     json_loads := λ _,
       Some (PDict {[ "esearchresult" :=
                        PDict {[ "idlist" := PList [PStr "1"; PStr "12345"] ]} ]});
     xml_fromstring := λ _, Some root;
     strptime_year := λ _, None;
     py_repr := λ _, "";
     encode := λ _ texts, (λ _, [1%Q]) <$> texts;
     cos_sim := λ _ _, 1%Q |}.

(** *** Sessions and caches *)

(** Every cache of [s1] is contained in the same cache of [s2]. *)
Definition caches_le (s1 s2 : session) : Prop :=
  cache_semantic_scholar s1 ⊆ cache_semantic_scholar s2 ∧
  cache_arxiv s1 ⊆ cache_arxiv s2 ∧
  cache_pubmed s1 ⊆ cache_pubmed s2 ∧
  cache_embed s1 ⊆ cache_embed s2.

Definition same_caches (s1 s2 : session) : Prop :=
  cache_semantic_scholar s1 = cache_semantic_scholar s2 ∧
  cache_arxiv s1 = cache_arxiv s2 ∧
  cache_pubmed s1 = cache_pubmed s2 ∧
  cache_embed s1 = cache_embed s2.

(** Code that leaves the caches alone. *)
Definition keeps_caches {A} (m : M A) : Prop :=
  ∀ s r s', m s = (r, s') → same_caches s s'.

(** Code that always returns a value. *)
Definition never_raises {A} (m : M A) : Prop :=
  ∀ s, ∃ v s', m s = (Ok v, s').

(** Code whose run only adds to the caches and, run again in any session
    that holds at least what the first run left, gives the same result and
    leaves that session as it is. *)
Definition replayable {A} (m : M A) : Prop :=
  ∀ s r s', m s = (r, s') →
    caches_le s s' ∧ ∀ s'', caches_le s' s'' → m s'' = (r, s'').

(** A world in which arXiv answers with a feed whose second entry has no
    [summary]. *)
Definition arxiv_feed : element :=
  Element (atom "feed") None
    [Element (atom "title") (Some "ArXiv Query") [];
     Element (atom "entry") None
       [Element (atom "id") (Some "http://arxiv.org/abs/2101.00001v1") [];
        Element (atom "published") (Some "2021-01-01T00:00:00Z") [];
        Element (atom "title") (Some " Deep Learning for X ") [];
        Element (atom "summary") (Some " We study deep learning. ") []];
     Element (atom "entry") None
       [Element (atom "id") (Some "http://arxiv.org/abs/2101.00002v1") [];
        Element (atom "published") (Some "2021-01-02T00:00:00Z") [];
        Element (atom "title") (Some "No summary") []]].

Definition arxiv_world (feed : element) : world :=
  {| http_get := λ _ _, Ok {| status_code := 200; body := "" |};
     json_loads := λ _, None;
     xml_fromstring := λ _, Some feed;
     strptime_year := λ _, Some 2021;
     py_repr := λ _, "";
     encode := λ _ texts, (λ _, [1%Q]) <$> texts;
     cos_sim := λ _ _, 1%Q |}.

(** A world in which the PubMed id search succeeds and finds nothing. *)
Definition no_ids_world : world :=
  {| http_get := λ _ _, Ok {| status_code := 200; body := "" |};
     json_loads := λ _,
       Some (PDict {[ "esearchresult" := PDict {[ "idlist" := PList [] ]} ]});
     xml_fromstring := λ _, None;
     strptime_year := λ _, None;
     py_repr := λ _, "";
     encode := λ _ texts, (λ _, [1%Q]) <$> texts;
     cos_sim := λ _ _, 1%Q |}.

(** *** Requests and effects of a run *)

(** The four requests the adapters build. *)
Definition semantic_scholar_request (query : string) (limit : Z) : request :=
  {| req_url := "https://api.semanticscholar.org/graph/v1/paper/search";
     req_params := [("query", PStr query); ("limit", PInt limit);
                    ("fields", PStr "title,abstract,url,year")] |}.

Definition arxiv_request (query : string) (max_results : Z) : request :=
  {| req_url := "http://export.arxiv.org/api/query?search_query=all:"
                +:+ query +:+ "&start=0&max_results=" +:+ pretty max_results;
     req_params := [] |}.

Definition esearch_request (query : string) (max_results : Z) : request :=
  {| req_url := base_url +:+ "esearch.fcgi";
     req_params := [("db", PStr "pubmed"); ("term", PStr query);
                    ("retmax", PInt max_results);
                    ("retmode", PStr "json")] |}.

Definition efetch_request (id : string) : request :=
  {| req_url := base_url +:+ "efetch.fcgi";
     req_params := [("db", PStr "pubmed"); ("id", PStr id);
                    ("retmode", PStr "xml")] |}.

(** A request that did not get through: [requests.get] raised, or the reply
    carries a 4xx or 5xx status. *)
Definition failed_reply (reply : result response) : bool :=
  match reply with
  | Err _ => true
  | Ok r => (400 <=? status_code r) && (status_code r <? 600)
  end.

Fixpoint starts_with (p s : string) : bool :=
  match p, s with
  | EmptyString, _ => true
  | String a p', String b s' => Ascii.eqb a b && starts_with p' s'
  | String _ _, EmptyString => false
  end.

(** A request to one of the three services. *)
Definition known_endpoint (r : request) : bool :=
  String.eqb (req_url r) "https://api.semanticscholar.org/graph/v1/paper/search"
  || starts_with "http://export.arxiv.org/api/query?" (req_url r)
  || String.eqb (req_url r) "https://eutils.ncbi.nlm.nih.gov/entrez/eutils/esearch.fcgi"
  || String.eqb (req_url r) "https://eutils.ncbi.nlm.nih.gov/entrez/eutils/efetch.fcgi".

(** Code that, whatever the session, appends at most [requests] requests,
    all to known endpoints, and at most [runs] model runs to the logs. *)
Definition effects {A} (requests runs : nat) (m : M A) : Prop :=
  ∀ s r s', m s = (r, s') →
    ∃ sent encoded,
      net_log s' = net_log s ++ sent ∧
      model_log s' = model_log s ++ encoded ∧
      (length sent ≤ requests)%nat ∧ (length encoded ≤ runs)%nat ∧
      Forall (λ req, known_endpoint req = true) sent.

(** *** Shapes of strings and records *)

Fixpoint all_chars (P : ascii → bool) (s : string) : bool :=
  match s with
  | EmptyString => true
  | String c s' => P c && all_chars P s'
  end.

(** A text made of whitespace only (the empty text included). *)
Definition all_space (s : string) : bool := all_chars is_space s.

(** A keyword as the highlighter expects it: not empty, without whitespace,
    in lower case. *)
Definition keyword_shaped (w : string) : Prop :=
  w ≠ "" ∧ all_chars (λ c, negb (is_space c)) w = true ∧ lower w = w.

(** A record [main] can display: a [dict] whose title and abstract are
    strings and which has a url and a year. *)
Definition displayable (p : pyval) : Prop :=
  ∃ fields title abstract url year,
    p = PDict fields ∧
    fields !! "title" = Some (PStr title) ∧
    fields !! "abstract" = Some (PStr abstract) ∧
    fields !! "url" = Some url ∧
    fields !! "year" = Some year.

(** Code that sends no request. *)
Definition silent {A} (m : M A) : Prop :=
  ∀ s r s', m s = (r, s') → net_log s' = net_log s.

(** After a run of [first], a run of [second] in a session that holds at
    least the caches the first run left sends no request. *)
Definition no_request_after {A B} (first : M A) (second : M B) : Prop :=
  ∀ s r1 s1, first s = (r1, s1) →
    ∀ s1' r2 s2, caches_le s1 s1' → second s1' = (r2, s2) →
      net_log s2 = net_log s1'.

(** A world in which PubMed returns one article whose title starts with
    markup, so that the title element has no text of its own. *)
Definition markup_title_article : element :=
  Element "PubmedArticle" None
    [Element "MedlineCitation" None
       [Element "PMID" (Some "4242") [];
        Element "Article" None
          [Element "Journal" None
             [Element "JournalIssue" None
                [Element "PubDate" None [Element "Year" (Some "2021") []]]];
           Element "ArticleTitle" None
             [Element "i" (Some "Staphylococcus aureus") []];
           Element "Abstract" None
             [Element "AbstractText" (Some "Deep learning for cocci.") []]]]].

(** A world in which Semantic Scholar answers [{"data": null}]. *)
Definition null_data_world : world :=
  {| http_get := λ _ _, Ok {| status_code := 200; body := "" |};
     json_loads := λ _, Some (PDict {[ "data" := PNone ]});
     xml_fromstring := λ _, None;
     strptime_year := λ _, None;
     py_repr := λ _, "";
     encode := λ _ texts, (λ _, [1%Q]) <$> texts;
     cos_sim := λ _ _, 1%Q |}.

Definition has_text (elem : option element) : bool :=
  match elem with
  | Some e => match text_of e with Some _ => true | None => false end
  | None => false
  end.

(** A feed entry the arXiv loop can turn into a record: it has a [title], a
    [summary] and an [id] with text, and a [published] date in the expected
    format. *)
Definition arxiv_entry_complete (w : world) (entry : element) : bool :=
  has_text (find_atom "title" entry) &&
  has_text (find_atom "summary" entry) &&
  has_text (find_atom "id" entry) &&
  match find_atom "published" entry with
  | Some e =>
      match text_of e with
      | Some published =>
          match strptime_year w published with
          | Some _ => true
          | None => false
          end
      | None => false
      end
  | None => false
  end.

(** The record the loop body builds from an entry: the stripped texts of
    its [title], [summary] and [id], and the year of its [published]
    date. *)
Definition arxiv_record_from (w : world) (entry : element) (p : pyval)
  : Prop :=
  ∃ title abstract url published year,
    text_attr (find_atom "title" entry) = Ok (Some title) ∧
    text_attr (find_atom "summary" entry) = Ok (Some abstract) ∧
    text_attr (find_atom "id" entry) = Ok (Some url) ∧
    text_attr (find_atom "published" entry) = Ok (Some published) ∧
    strptime_year w published = Some year ∧
    p = PDict {[ "title" := PStr (strip title);
                 "abstract" := PStr (strip abstract);
                 "url" := PStr (strip url); "year" := PInt year ]}.

(** *** The highlighter on arbitrary keywords *)

(** The characters of a text. *)
Definition chars (s : string) : list ascii := list_ascii_of_string s.

(** The keyword occurs somewhere in the text, compared without regard to
    case (and without regard to word boundaries). *)
Fixpoint occurs_ci (word s : string) : bool :=
  match match_literal word s with
  | Some _ => true
  | None =>
      match s with
      | EmptyString => false
      | String _ s' => occurs_ci word s'
      end
  end.

(** *** The table for download (lines 192-198) *)

Record row := {
  row_title : pyval;
  row_abstract : pyval;
  row_year : pyval;
  row_url : pyval;
  row_similarity : Q }.

(** One dictionary per ranked paper, with the keys [Title], [Abstract],
    [Year], [URL], [Similarity] in this order. *)
Definition export_row (item : scored) : result row :=
  let '(similarity, paper) := item in
  title ← py_getitem paper "title";
  abstract ← py_getitem paper "abstract";
  year ← py_getitem paper "year";
  url ← py_getitem paper "url";
  Ok {| row_title := title; row_abstract := abstract; row_year := year;
        row_url := url; row_similarity := similarity |}.

Definition export_rows (scored_papers : list scored) : result (list row) :=
  mapM export_row scored_papers.

(** *** The filter as a predicate *)

(** The record passes the filter: the condition is evaluated without an
    exception and holds. *)
Definition kept (start_year end_year : Z) (p : pyval) : bool :=
  match keep_paper start_year end_year p with
  | Ok b => b
  | Err _ => false
  end.

(* ===================================================================== *)
(** * Properties *)
(* ===================================================================== *)

(** ** The aggregation filter *)

Lemma year_between_iff start_year end_year year :
  year_between start_year end_year year ↔
  int_le_py start_year year = Ok true ∧ py_le_int year end_year = Ok true.
Proof.
  destruct year as [|b|y|bits|s|l|d]; cbn;
    try (split; [done|by intros [[=] _]]).
  - rewrite <- !Z.leb_le. split; [by intros [-> ->]|].
    by intros [[= ->] [= ->]].
  - rewrite <- !Z.leb_le. split; [by intros [-> ->]|].
    by intros [[= ->] [= ->]].
  - unfold int_le_float, float_le_int.
    destruct (float_value bits) as [q|negative|].
    + split.
      * intros (q' & [= <-] & Hlo & Hhi).
        apply Qle_bool_iff in Hlo, Hhi. by rewrite Hlo, Hhi.
      * intros [[= Hlo] [= Hhi]]. exists q.
        split; [done|]. by split; apply Qle_bool_iff.
    + split; [by intros (q & [=] & _)|].
      intros [[= Hlo] [= Hhi]]. rewrite Hhi in Hlo. discriminate.
    + split; [by intros (q & [=] & _)|]. by intros [[=] _].
Qed.

Lemma year_between_ordered start_year end_year year :
  year_between start_year end_year year → start_year ≤ end_year.
Proof.
  destruct year as [|b|y|bits|s|l|d]; cbn; try done; try lia.
  intros (q & _ & Hlo & Hhi). rewrite Zle_Qle. by apply Qle_trans with q.
Qed.

Lemma keep_paper_true start_year end_year p :
  keep_paper start_year end_year p = Ok true →
  ∃ fields year,
    p = PDict fields ∧
    truthy (default PNone (fields !! "abstract")) = true ∧
    fields !! "year" = Some year ∧ truthy year = true ∧
    year_between start_year end_year year.
Proof.
  destruct p as [| | | | | |fields]; try discriminate.
  unfold keep_paper, py_get, py_get_default, py_getitem. cbn.
  destruct (truthy (default PNone (fields !! "abstract"))) eqn:Ha;
    [|discriminate].
  destruct (fields !! "year") as [year|] eqn:Hy; cbn; [|discriminate].
  destruct (truthy year) eqn:Ht; [|discriminate].
  destruct (int_le_py start_year year) as [[]|] eqn:Hlo; cbn;
    try discriminate.
  intros Hhi. exists fields, year. repeat split; try done.
  by apply year_between_iff.
Qed.

Lemma keep_paper_falsy_abstract start_year end_year fields :
  truthy (default PNone (fields !! "abstract")) = false →
  keep_paper start_year end_year (PDict fields) = Ok false.
Proof. unfold keep_paper. cbn. by intros ->. Qed.

Lemma keep_paper_falsy_year start_year end_year fields :
  truthy (default PNone (fields !! "year")) = false →
  keep_paper start_year end_year (PDict fields) = Ok false.
Proof. unfold keep_paper. cbn. intros ->. by destruct (truthy _). Qed.

Lemma filtered_papers_cons start_year end_year p rest out :
  filtered_papers start_year end_year (p :: rest) = Ok out →
  ∃ b out', keep_paper start_year end_year p = Ok b ∧
            filtered_papers start_year end_year rest = Ok out' ∧
            out = if b then p :: out' else out'.
Proof.
  cbn. destruct (keep_paper _ _ p) as [b|]; cbn; [|discriminate].
  destruct (filtered_papers _ _ rest) as [out'|]; cbn; [|discriminate].
  intros [= <-]. by exists b, out'.
Qed.

Lemma filtered_papers_elem start_year end_year all_papers out p :
  filtered_papers start_year end_year all_papers = Ok out →
  p ∈ out →
  p ∈ all_papers ∧ keep_paper start_year end_year p = Ok true.
Proof.
  revert out. induction all_papers as [|q rest IH]; intros out.
  - intros [= <-] Hin. by apply elem_of_nil in Hin.
  - intros (b & out' & Hb & Hrest & ->)%filtered_papers_cons Hin.
    destruct b.
    + apply elem_of_cons in Hin as [->|Hin].
      * split; [left|done].
      * destruct (IH _ Hrest Hin). split; [by right|done].
    + destruct (IH _ Hrest Hin). split; [by right|done].
Qed.

Lemma keep_paper_typed start_year end_year p :
  year_typed p → ∃ b, keep_paper start_year end_year p = Ok b.
Proof.
  destruct p as [| | | | | |fields]; try done.
  unfold year_typed, keep_paper, py_get, py_get_default, py_getitem. cbn.
  destruct (truthy (default PNone (fields !! "abstract"))); [|by eexists].
  destruct (fields !! "year") as [[|b|y|bits|s|l|d]|] eqn:Hy; cbn;
    try done; try by eexists.
  - intros _. destruct b; cbn; [|by eexists].
    destruct (start_year <=? 1); cbn; by eexists.
  - intros _. destruct (y =? 0); cbn; [by eexists|].
    destruct (start_year <=? y); cbn; by eexists.
  - intros _.
    destruct (match float_value bits with
              | Finite q => negb (Qeq_bool q 0)
              | _ => true
              end); cbn; [|by eexists].
    destruct (int_le_float start_year bits); cbn; by eexists.
Qed.

Lemma filtered_papers_total start_year end_year all_papers :
  Forall year_typed all_papers →
  ∃ out, filtered_papers start_year end_year all_papers = Ok out.
Proof.
  induction 1 as [|p rest Hp _ [out IH]]; cbn; [by eexists|].
  destruct (keep_paper_typed start_year end_year p Hp) as [b ->].
  rewrite IH. cbn. by eexists.
Qed.

(** C1. Whatever the adapters returned and whatever the year range, every
    record in the output of the aggregation filter is one of the input
    records, carries a non-null abstract and has a year, a number with
    [start_year <= year <= end_year]; a record whose abstract or year is
    absent ([None] or no such key) is never in the output.  The filter does
    produce an output when every input record is a [dict] whose year is a
    number or absent. *)
Theorem aggregator_output_invariant start_year end_year all_papers :
  (∀ out, filtered_papers start_year end_year all_papers = Ok out →
     (∀ p, p ∈ out →
        p ∈ all_papers ∧
        ∃ fields abstract year,
          p = PDict fields ∧
          fields !! "abstract" = Some abstract ∧ abstract ≠ PNone ∧
          fields !! "year" = Some year ∧ year ≠ PNone ∧
          year_between start_year end_year year) ∧
     (∀ p, py_get p "abstract" = Ok PNone ∨ py_get p "year" = Ok PNone →
        p ∉ out)) ∧
  (Forall year_typed all_papers →
     ∃ out, filtered_papers start_year end_year all_papers = Ok out).
Proof.
  split; [|apply filtered_papers_total].
  intros out Hout.
  assert (Hall : ∀ p, p ∈ out →
     p ∈ all_papers ∧
     ∃ fields abstract year,
       p = PDict fields ∧
       fields !! "abstract" = Some abstract ∧ abstract ≠ PNone ∧
       fields !! "year" = Some year ∧ year ≠ PNone ∧
       year_between start_year end_year year).
  { intros p Hin.
    destruct (filtered_papers_elem _ _ _ _ _ Hout Hin) as [Hp Hk].
    apply keep_paper_true in Hk as (fields & year & -> & Ha & Hy & Ht & Hr).
    split; [done|].
    destruct (fields !! "abstract") as [abstract|] eqn:Habs; [|done].
    exists fields, abstract, year. repeat split; try done.
    - by intros ->.
    - by intros ->. }
  split; [done|].
  intros p Habsent Hin.
  destruct (Hall p Hin)
    as (_ & fields & abstract & year & -> & Ha & Hne & Hy & Hny & _).
  unfold py_get, py_get_default in Habsent. rewrite Ha, Hy in Habsent.
  destruct Habsent as [[= ?]|[= ?]]; done.
Qed.

Lemma aggregator_output_invariant_witness :
  filtered_papers 2020 2024
    [sample_paper (PStr "deep learning") (PInt 2021);
     sample_paper PNone (PInt 2021);
     sample_paper (PStr "old") (PInt 2018)]
  = Ok [sample_paper (PStr "deep learning") (PInt 2021)] ∧
  ∃ fields abstract year,
    sample_paper (PStr "deep learning") (PInt 2021) = PDict fields ∧
    fields !! "abstract" = Some abstract ∧ abstract ≠ PNone ∧
    fields !! "year" = Some year ∧ year ≠ PNone ∧
    year_between 2020 2024 year.
Proof.
  assert (Hout : filtered_papers 2020 2024
    [sample_paper (PStr "deep learning") (PInt 2021);
     sample_paper PNone (PInt 2021);
     sample_paper (PStr "old") (PInt 2018)]
    = Ok [sample_paper (PStr "deep learning") (PInt 2021)]).
  { vm_compute. reflexivity. }
  split; [exact Hout|].
  destruct (proj1 (aggregator_output_invariant 2020 2024 _) _ Hout)
    as [Hkept _].
  exact (proj2 (Hkept _ (list_elem_of_here _ _))).
Defined.

(** A fractional year is compared like any other number: 2021.5 is inside
    2020..2024, 2024.0000000000002 is not, and a NaN is in no range. *)
Example filtered_papers_float_year :
  filtered_papers 2020 2024
    [sample_paper (PStr "a") (PFloat 4656605466468548608);
     sample_paper (PStr "b") (PFloat 4656616461584826369);
     sample_paper (PStr "c") (PFloat 9221120237041090560);
     sample_paper (PStr "d") (PBool true);
     sample_paper (PStr "e") (PFloat 0)] =
  Ok [sample_paper (PStr "a") (PFloat 4656605466468548608)].
Proof. vm_compute. reflexivity. Qed.

Example filtered_papers_sample :
  filtered_papers 2020 2024
    [sample_paper (PStr "deep learning") (PInt 2021);
     sample_paper PNone (PInt 2021);
     sample_paper (PStr "old") (PInt 2018);
     sample_paper (PStr "undated") PNone] =
  Ok [sample_paper (PStr "deep learning") (PInt 2021)].
Proof. vm_compute. reflexivity. Qed.

(** C10. The filter tests truthiness, not presence: a record whose abstract
    is the empty string, or whose year is 0, is rejected by the filter
    without an exception, exactly like the same record with that field
    removed; it is in no output, and taking it out of the input leaves the
    output as it is. *)
Theorem falsy_fields_dropped start_year end_year (fields : gmap string pyval) :
  fields !! "abstract" = Some (PStr "") ∨ fields !! "year" = Some (PInt 0) →
  keep_paper start_year end_year (PDict fields) = Ok false ∧
  (fields !! "abstract" = Some (PStr "") →
     keep_paper start_year end_year (PDict (delete "abstract" fields))
     = Ok false) ∧
  (fields !! "year" = Some (PInt 0) →
     keep_paper start_year end_year (PDict (delete "year" fields))
     = Ok false) ∧
  (∀ all_papers out,
     filtered_papers start_year end_year all_papers = Ok out →
     PDict fields ∉ out) ∧
  (∀ before after,
     filtered_papers start_year end_year (before ++ PDict fields :: after) =
     filtered_papers start_year end_year (before ++ after)).
Proof.
  intros Hf.
  assert (Hk : keep_paper start_year end_year (PDict fields) = Ok false).
  { destruct Hf as [Ha|Hy].
    - apply keep_paper_falsy_abstract. by rewrite Ha.
    - apply keep_paper_falsy_year. by rewrite Hy. }
  split; [done|]. split; [|split; [|split]].
  - intros _. apply keep_paper_falsy_abstract. by rewrite lookup_delete_eq.
  - intros _. apply keep_paper_falsy_year. by rewrite lookup_delete_eq.
  - intros all_papers out Hout Hin.
    destruct (filtered_papers_elem _ _ _ _ _ Hout Hin) as [_ Hk'].
    congruence.
  - intros before after.
    induction before as [|q before IH]; cbn [app filtered_papers].
    + rewrite Hk. cbn. by destruct (filtered_papers _ _ after).
    + by rewrite IH.
Qed.

Lemma falsy_fields_dropped_witness :
  ({[ "title" := PStr "T"; "abstract" := PStr ""; "year" := PInt 2021 ]}
     : gmap string pyval) !! "abstract" = Some (PStr "") ∧
  keep_paper 0 2024
    (PDict {[ "title" := PStr "T"; "abstract" := PStr "";
              "year" := PInt 2021 ]}) = Ok false.
Proof.
  assert (Ha : ({[ "title" := PStr "T"; "abstract" := PStr "";
                   "year" := PInt 2021 ]} : gmap string pyval) !! "abstract"
               = Some (PStr "")) by (vm_compute; reflexivity).
  split; [exact Ha|].
  exact (proj1 (falsy_fields_dropped 0 2024 _ (or_introl Ha))).
Defined.

(** ** The ranking step *)

Section ListSortFacts.
Context {A : Type} (key : A → Q).

Lemma key_lt_spec a b : key_lt key a b = true ↔ (key a < key b)%Q.
Proof.
  unfold key_lt. rewrite negb_true_iff, <- not_true_iff_false, Qle_bool_iff.
  split; [apply Qnot_le_lt | apply Qlt_not_le].
Qed.

Lemma key_lt_false a b : key_lt key a b = false → (key b <= key a)%Q.
Proof.
  unfold key_lt. rewrite negb_false_iff. apply Qle_bool_imp_le.
Qed.

Lemma insert_stable_perm x l : insert_stable key x l ≡ₚ x :: l.
Proof.
  induction l as [|y l IH]; simpl; [done|].
  destruct (key_lt key y x); [|done].
  rewrite IH. apply Permutation_swap.
Qed.

Lemma sort_ascending_perm l : sort_ascending key l ≡ₚ l.
Proof.
  induction l as [|x l IH]; simpl; [done|].
  by rewrite insert_stable_perm, IH.
Qed.

Lemma insert_stable_sorted x l :
  StronglySorted (key_le key) l → StronglySorted (key_le key) (insert_stable key x l).
Proof.
  induction 1 as [|y l Hs IH Hy]; simpl.
  - repeat constructor.
  - destruct (key_lt key y x) eqn:Hlt.
    + constructor; [done|].
      rewrite insert_stable_perm. constructor; [|done].
      apply key_lt_spec in Hlt. by apply Qlt_le_weak.
    + apply key_lt_false in Hlt.
      constructor; [by constructor|].
      constructor; [done|].
      eapply Forall_impl; [exact Hy|].
      intros z Hz. unfold key_le in *. by eapply Qle_trans.
Qed.

Lemma sort_ascending_sorted l : StronglySorted (key_le key) (sort_ascending key l).
Proof.
  induction l as [|x l IH]; simpl; [constructor|].
  by apply insert_stable_sorted.
Qed.

(** Insertion never moves an element past one with an equal key. *)
Lemma insert_stable_filter q x l :
  List.filter (λ a, Qeq_bool (key a) q) (insert_stable key x l) =
  List.filter (λ a, Qeq_bool (key a) q) (x :: l).
Proof.
  induction l as [|y l IH]; [done|].
  cbn [insert_stable]. destruct (key_lt key y x) eqn:Hlt; [|done].
  cbn [List.filter] in *. rewrite IH.
  destruct (Qeq_bool (key x) q) eqn:Hx; [|done].
  destruct (Qeq_bool (key y) q) eqn:Hy; [|done].
  apply key_lt_spec in Hlt.
  apply Qeq_bool_eq in Hx, Hy. rewrite Hx, Hy in Hlt.
  by apply Qlt_irrefl in Hlt.
Qed.

Lemma sort_ascending_filter q l :
  List.filter (λ a, Qeq_bool (key a) q) (sort_ascending key l) =
  List.filter (λ a, Qeq_bool (key a) q) l.
Proof.
  induction l as [|x l IH]; [done|].
  cbn [sort_ascending]. rewrite insert_stable_filter.
  cbn [List.filter]. by rewrite IH.
Qed.

Lemma StronglySorted_rev_flip (R : relation A) l :
  StronglySorted R l → StronglySorted (flip R) (rev l).
Proof.
  induction 1 as [|x l Hs IH Hx]; simpl; [constructor|].
  apply StronglySorted_app_2; [|done|repeat constructor].
  intros a b Ha Hb. apply list_elem_of_singleton in Hb as ->.
  apply list_elem_of_In, in_rev, list_elem_of_In in Ha.
  rewrite Forall_forall in Hx. by apply Hx.
Qed.

Lemma StronglySorted_adjacent (R : relation A) l i a b :
  StronglySorted R l → l !! i = Some a → l !! S i = Some b → R a b.
Proof.
  intros Hs. revert i. induction Hs as [|x l Hs IH Hx]; intros i; [done|].
  destruct i as [|i]; simpl.
  - intros [= ->] Hb. rewrite Forall_forall in Hx.
    apply Hx. by eapply list_elem_of_lookup_2.
  - apply IH.
Qed.

Lemma list_sort_reverse_perm l : list_sort key true l ≡ₚ l.
Proof.
  unfold list_sort.
  by rewrite <- Permutation_rev, sort_ascending_perm, <- Permutation_rev.
Qed.

Lemma list_sort_reverse_sorted l :
  StronglySorted (flip (key_le key)) (list_sort key true l).
Proof. apply StronglySorted_rev_flip, sort_ascending_sorted. Qed.

Lemma list_sort_reverse_stable q l :
  List.filter (λ a, Qeq_bool (key a) q) (list_sort key true l) =
  List.filter (λ a, Qeq_bool (key a) q) l.
Proof.
  unfold list_sort.
  by rewrite filter_rev, sort_ascending_filter, filter_rev, rev_involutive.
Qed.
End ListSortFacts.

Lemma score_papers_order w idea_embedding paper_embeddings papers :
  ∀ idx scored_papers,
    score_papers w idea_embedding paper_embeddings idx papers
      = Ok scored_papers →
    scored_papers.*2 = papers.
Proof.
  induction papers as [|p papers IH]; intros idx scored_papers.
  - by intros [= <-].
  - cbn [score_papers].
    destruct (index paper_embeddings idx) as [e|]; [|discriminate].
    cbn. destruct (score_papers _ _ _ (S idx) papers) as [rest|] eqn:Hrest;
      [|discriminate].
    intros [= <-]. cbn. f_equal. by eapply IH.
Qed.

Example rank_papers_ties :
  rank_papers [(1 # 2, PStr "a"); (3 # 4, PStr "b"); (2 # 4, PStr "c");
               (3 # 4, PStr "d"); (1 # 4, PStr "e")] =
  [(3 # 4, PStr "b"); (3 # 4, PStr "d"); (1 # 2, PStr "a");
   (2 # 4, PStr "c"); (1 # 4, PStr "e")].
Proof. vm_compute. reflexivity. Qed.

(** C2. The ranking step returns the scored papers in descending order of
    similarity: for adjacent results [(s1,_)], [(s2,_)], [s1 >= s2].  The
    result is a rearrangement of its input, and the sort is stable: for every
    similarity value, the papers with that similarity appear in the same
    relative order as in the scored list, and the scoring loop keeps the
    papers in the order of the concatenated and filtered list. *)
Theorem rank_papers_sorted_stable (scored_papers : list scored) :
  (∀ i s1 p1 s2 p2,
     rank_papers scored_papers !! i = Some (s1, p1) →
     rank_papers scored_papers !! S i = Some (s2, p2) →
     (s2 <= s1)%Q) ∧
  rank_papers scored_papers ≡ₚ scored_papers ∧
  (∀ q, List.filter (λ x, Qeq_bool x.1 q) (rank_papers scored_papers) =
        List.filter (λ x, Qeq_bool x.1 q) scored_papers) ∧
  (∀ w idea_embedding paper_embeddings filtered,
     score_papers w idea_embedding paper_embeddings 0 filtered
       = Ok scored_papers →
     scored_papers.*2 = filtered).
Proof.
  unfold rank_papers. split; [|split; [|split]].
  - intros i s1 p1 s2 p2 H1 H2.
    exact (StronglySorted_adjacent _ _ _ _ _
             (list_sort_reverse_sorted fst scored_papers) H1 H2).
  - apply list_sort_reverse_perm.
  - intros q. apply list_sort_reverse_stable.
  - intros w idea_embedding paper_embeddings filtered.
    apply score_papers_order.
Qed.

(** ** The keyword highlighter *)

Example highlight_deep_learning :
  highlight_keywords "Deep Learning for X" ["deep"; "learning"] =
  mark "Deep" +:+ " " +:+ mark "Learning" +:+ " for X".
Proof. vm_compute. reflexivity. Qed.

Example highlight_learn_in_learning :
  highlight_keywords "learning" ["learn"] = "learning".
Proof. vm_compute. reflexivity. Qed.

Example highlight_nonword_keyword :
  highlight_keywords "c++ rocks c++x" ["c++"] =
  "c++ rocks " +:+ mark "c++" +:+ "x".
Proof. vm_compute. reflexivity. Qed.

Example highlight_rescans_markup :
  highlight_keywords "deep b" ["deep"; "b"] =
  "<span style='background-color: #ffff66'><" +:+ mark "b" +:+ ">deep</"
  +:+ mark "b" +:+ "></span> " +:+ mark "b".
Proof. vm_compute. reflexivity. Qed.

#[local] Arguments String.append !_ _ : simpl nomatch.














Lemma re_sub_from_skip word t : ∀ prev rest,
  re_sub_from word (String.length t) prev (t +:+ rest) =
  re_sub_from word 0 (last_char prev t) rest.
Proof.
  induction t as [|c t IH]; intros prev rest; [done|].
  simpl. apply IH.
Qed.




(** *** Texts as token lists *)




























(** C6. The claim fails on the code.  The keywords are substituted one
    after another, and each pass scans the output of the one before it, the
    inserted markup included.  With the keywords of the query
    [hepatitis b] on the title [Hepatitis B virus], the pass for [b] wraps
    the [b] of the [<b>] and [</b>] tags that the pass for [hepatitis]
    inserted: what is wrapped is not a word of the text, and the tags
    around [Hepatitis] are broken.  With the same keywords in the other
    order the code does what the claim says. *)
Theorem highlight_rescans_inserted_markup :
  split (lower (strip "hepatitis b")) = ["hepatitis"; "b"] ∧
  highlight_keywords "Hepatitis B virus" ["hepatitis"; "b"] =
    "<span style='background-color: #ffff66'><" +:+ mark "b"
    +:+ ">Hepatitis</" +:+ mark "b" +:+ "></span> " +:+ mark "B"
    +:+ " virus" ∧
  highlight_whole_words "Hepatitis B virus" ["hepatitis"; "b"] =
    mark "Hepatitis" +:+ " " +:+ mark "B" +:+ " virus" ∧
  highlight_keywords "Hepatitis B virus" ["b"; "hepatitis"] =
    mark "Hepatitis" +:+ " " +:+ mark "B" +:+ " virus".
Proof. vm_compute. repeat split. Qed.

(** A keyword that ends in a non-word character needs a word character
    after it to match, so a free-standing occurrence is not highlighted. *)
Example highlight_nonword_keyword_missed :
  highlight_keywords "c++ rocks" ["c++"] = "c++ rocks".
Proof. vm_compute. reflexivity. Qed.

(** C7. With an empty keyword list the highlighter returns its text
    unchanged. *)
Theorem highlight_no_keywords (text : string) :
  highlight_keywords text [] = text.
Proof. reflexivity. Qed.

(** ** The adapters *)

Example parse_int_examples :
  parse_int " 2021 " = Some 2021 ∧ parse_int "-7" = Some (-7) ∧
  parse_int "2_021" = Some 2021 ∧ parse_int "20x1" = None ∧
  parse_int "" = None ∧ parse_int "_1" = None ∧
  parse_int (String (ascii_of_nat 160) "2021") = Some 2021 ∧
  parse_int (String (ascii_of_nat 28) "2021") = None ∧
  strip (String (ascii_of_nat 28) "2021") = "2021".
Proof. vm_compute. repeat split. Qed.

Example split_example :
  split (lower (strip "  Deep  Learning for X ")) = ["deep"; "learning"; "for"; "x"].
Proof. vm_compute. reflexivity. Qed.

Example pubmed_papers_example :
  pubmed_papers (article_set [good_article; untitled_article]) =
  Ok [PDict {[ "title" := PStr "Deep Learning for X";
               "abstract" := PStr "We study deep learning.";
               "url" := PStr "https://pubmed.ncbi.nlm.nih.gov/12345/";
               "year" := PInt 2021 ]}].
Proof. vm_compute. reflexivity. Qed.

Lemma try_except_ok {A} (body : M A) (fallback : A) s :
  ∃ v s', try_except body (λ _, mret fallback) s = (Ok v, s').
Proof.
  unfold try_except. destruct (body s) as [[v|e] s']; by eexists _, _.
Qed.

Lemma try_except_caught {A} (body : M A) (fallback : A) s e s' :
  body s = (Err e, s') →
  try_except body (λ _, mret fallback) s = (Ok fallback, s').
Proof. unfold try_except. by intros ->. Qed.

Lemma cached_ok {K V} `{Countable K} (get : session → gmap K V) set key
    (f : M V) s :
  (∃ v s', f s = (Ok v, s')) →
  ∃ v s', cached get set key f s = (Ok v, s').
Proof.
  intros (v & s' & Hf). unfold cached.
  destruct (get s !! key) as [v0|]; [by eexists _, _|].
  rewrite Hf. by eexists _, _.
Qed.

(** C3. In each of the three adapters an exception raised by the fetch or
    the parse is caught: the function then returns the empty list.  For
    every query, limit, state of the world and of the session, the adapter
    call returns a value and raises nothing, cached or not. *)
Theorem adapters_catch_exceptions (w : world) (query : string) (limit : Z)
    (s : session) :
  ((∀ e s', search_semantic_scholar_try w query limit s = (Err e, s') →
      search_semantic_scholar_fn w query limit s = (Ok (PList []), s')) ∧
   (∃ v s', search_semantic_scholar_fn w query limit s = (Ok v, s')) ∧
   (∃ v s', search_semantic_scholar w query limit s = (Ok v, s'))) ∧
  ((∀ e s', search_arxiv_try w query limit s = (Err e, s') →
      search_arxiv_fn w query limit s = (Ok [], s')) ∧
   (∃ v s', search_arxiv_fn w query limit s = (Ok v, s')) ∧
   (∃ v s', search_arxiv w query limit s = (Ok v, s'))) ∧
  ((∀ e s', search_pubmed_try w query limit s = (Err e, s') →
      search_pubmed_fn w query limit s = (Ok [], s')) ∧
   (∃ v s', search_pubmed_fn w query limit s = (Ok v, s')) ∧
   (∃ v s', search_pubmed w query limit s = (Ok v, s'))).
Proof.
  repeat split;
    try (intros e s'; apply try_except_caught);
    try apply cached_ok; apply try_except_ok.
Qed.

Example offline_adapters_degrade :
  (search_semantic_scholar_try offline_world "deep learning" 20 empty_session).1
    = Err RequestException ∧
  (search_semantic_scholar offline_world "deep learning" 20 empty_session).1
    = Ok (PList []) ∧
  (search_arxiv offline_world "deep learning" 20 empty_session).1 = Ok [] ∧
  (search_pubmed offline_world "deep learning" 20 empty_session).1 = Ok [].
Proof. vm_compute. repeat split. Qed.

Example arxiv_entry_without_summary :
  (search_arxiv_try (arxiv_world arxiv_feed) "deep learning" 20
     empty_session).1 = Err AttributeError ∧
  (search_arxiv (arxiv_world arxiv_feed) "deep learning" 20
     empty_session).1 = Ok [] ∧
  (search_arxiv (arxiv_world (Element (atom "feed") None
                                (take 2 (children_of arxiv_feed))))
     "deep learning" 20 empty_session).1 =
  Ok [PDict {[ "title" := PStr "Deep Learning for X";
               "abstract" := PStr "We study deep learning.";
               "url" := PStr "http://arxiv.org/abs/2101.00001v1";
               "year" := PInt 2021 ]}].
Proof. vm_compute. repeat split. Qed.

(** *** The PubMed loop *)

Lemma pubmed_article_readable article :
  readable article = true →
  ∃ r, pubmed_article article = Ok r ∧
       (complete article = false → r = None) ∧
       (complete article = true →
          ∃ fields, r = Some (PDict fields) ∧
            (find_descendant_child "PubDate" "Year" article = None →
               fields !! "year" = Some PNone) ∧
            (∀ e, find_descendant_child "PubDate" "Year" article = Some e →
               ∃ z, py_int (text_of e) = Ok z ∧
                    fields !! "year" = Some (PInt z))).
Proof.
  unfold readable, complete, pubmed_article.
  destruct (find_descendant "PMID" article) as [pm|]; [|done].
  destruct (find_descendant_child "PubDate" "Year" article) as [e|].
  - destruct (py_int (text_of e)) as [z|] eqn:Hz; [|done]. intros _. cbn.
    destruct (find_descendant "ArticleTitle" article) as [t|];
      [|eexists; split; [done|]; split; [done|discriminate]].
    destruct (find_descendant_child "Abstract" "AbstractText" article) as [a|];
      [|eexists; split; [done|]; split; [done|discriminate]].
    eexists. split; [done|]. split; [discriminate|]. intros _.
    eexists. split; [done|]. split; [discriminate|].
    intros e' [= <-]. exists z. split; [done|]. by simplify_map_eq.
  - intros _. cbn.
    destruct (find_descendant "ArticleTitle" article) as [t|];
      [|eexists; split; [done|]; split; [done|discriminate]].
    destruct (find_descendant_child "Abstract" "AbstractText" article) as [a|];
      [|eexists; split; [done|]; split; [done|discriminate]].
    eexists. split; [done|]. split; [discriminate|]. intros _.
    eexists. split; [done|]. split; [|discriminate].
    intros _. by simplify_map_eq.
Qed.

Lemma pubmed_article_unreadable article :
  readable article = false → ∃ e, pubmed_article article = Err e.
Proof.
  unfold readable, pubmed_article.
  destruct (find_descendant_child "PubDate" "Year" article) as [y|].
  - destruct (py_int (text_of y)) as [z|err]; cbn.
    + destruct (find_descendant "PMID" article); [done|]. by eexists.
    + by eexists.
  - cbn. destruct (find_descendant "PMID" article); [done|]. by eexists.
Qed.

Lemma pubmed_loop_readable articles :
  Forall (λ a, readable a = true) articles →
  pubmed_loop articles = Ok (omap record_of articles).
Proof.
  induction 1 as [|a rest Ha _ IH]; [done|].
  destruct (pubmed_article_readable a Ha) as (r & Hr & _).
  assert (Hrec : record_of a = r) by (unfold record_of; by rewrite Hr).
  change (omap record_of (a :: rest))
    with (match record_of a with
          | Some y => y :: omap record_of rest
          | None => omap record_of rest
          end).
  cbn [pubmed_loop]. by rewrite Hr, IH, Hrec.
Qed.

Lemma pubmed_loop_unreadable articles a :
  a ∈ articles → readable a = false → ∃ e, pubmed_loop articles = Err e.
Proof.
  intros Hin Ha. induction Hin as [a rest|a b rest Hin IH]; cbn.
  - destruct (pubmed_article_unreadable a Ha) as [e ->]. by eexists.
  - destruct (pubmed_article b) as [r|e]; cbn; [|by eexists].
    destruct (IH Ha) as [e ->]. by eexists.
Qed.

Lemma pubmed_loop_skip before a after :
  pubmed_article a = Ok None →
  pubmed_loop (before ++ a :: after) = pubmed_loop (before ++ after).
Proof.
  intros Ha. induction before as [|b before IH]; cbn [app pubmed_loop].
  - rewrite Ha. cbn. by destruct (pubmed_loop after).
  - by rewrite IH.
Qed.

(** C5, as the code has it.  When every fetched article has a [PMID]
    element and an integer in its [PubDate/Year] (if it has one), the loop
    raises nothing and the adapter returns, in order, the records of the
    articles that have both an [ArticleTitle] and an
    [Abstract/AbstractText]: an article lacking either yields no record and
    the others are returned as if it were not there; the year of a record
    is the integer of [PubDate/Year] when the element is present and [None]
    otherwise. *)
Theorem pubmed_skips_incomplete (articles : list element) :
  Forall (λ a, readable a = true) articles →
  pubmed_loop articles = Ok (omap record_of articles) ∧
  (∀ w query max_results s ids s1 root s2,
     pubmed_esearch w query max_results s = (Ok ids, s1) →
     truthy ids = true →
     pubmed_efetch w ids s1 = (Ok root, s2) →
     findall_descendant "PubmedArticle" root = articles →
     search_pubmed_fn w query max_results s
       = (Ok (omap record_of articles), s2) ∧
     (cache_pubmed s !! (query, max_results) = None →
        (search_pubmed w query max_results s).1
          = Ok (omap record_of articles))) ∧
  (∀ before a after,
     articles = before ++ a :: after → complete a = false →
     record_of a = None ∧
     omap record_of articles = omap record_of (before ++ after) ∧
     pubmed_loop articles = pubmed_loop (before ++ after)) ∧
  (∀ a, a ∈ articles → complete a = true →
     ∃ fields, record_of a = Some (PDict fields) ∧
       PDict fields ∈ omap record_of articles ∧
       (find_descendant_child "PubDate" "Year" a = None →
          fields !! "year" = Some PNone) ∧
       (∀ e, find_descendant_child "PubDate" "Year" a = Some e →
          ∃ z, py_int (text_of e) = Ok z ∧
               fields !! "year" = Some (PInt z))).
Proof.
  intros Hall.
  pose proof (pubmed_loop_readable _ Hall) as Hloop.
  split; [done|]. split; [|split].
  - intros w query max_results s ids s1 root s2 Hsearch Hids Hfetch Hroot.
    assert (Hfn : search_pubmed_fn w query max_results s
                  = (Ok (omap record_of articles), s2)).
    { unfold search_pubmed_fn, try_except, search_pubmed_try, mbind, M_bind.
      rewrite Hsearch, Hids. cbn. rewrite Hfetch.
      unfold lift, pubmed_papers. by rewrite Hroot, Hloop. }
    split; [done|].
    intros Hmiss. unfold search_pubmed, cached. by rewrite Hmiss, Hfn.
  - intros before a after -> Hc.
    assert (Ha : readable a = true).
    { rewrite Forall_forall in Hall. apply Hall.
      apply elem_of_app. right. left. }
    destruct (pubmed_article_readable a Ha) as (r & Hr & Hnone & _).
    specialize (Hnone Hc) as ->.
    assert (Hrec : record_of a = None) by (unfold record_of; by rewrite Hr).
    split; [done|]. split; [|by apply pubmed_loop_skip].
    rewrite !omap_app.
    change (omap record_of (a :: after))
      with (match record_of a with
            | Some y => y :: omap record_of after
            | None => omap record_of after
            end).
    by rewrite Hrec.
  - intros a Hin Hc. rewrite Forall_forall in Hall.
    destruct (pubmed_article_readable a (Hall a Hin)) as (r & Hr & _ & Hsome).
    destruct (Hsome Hc) as (fields & -> & Hy).
    assert (Hrec : record_of a = Some (PDict fields))
      by (unfold record_of; by rewrite Hr).
    exists fields. split; [done|]. split; [|done].
    apply list_elem_of_omap. by exists a.
Qed.

Lemma pubmed_skips_incomplete_witness :
  Forall (λ a, readable a = true) [untitled_article; good_article] ∧
  complete untitled_article = false ∧
  (search_pubmed (pubmed_world (article_set [untitled_article; good_article]))
                 "deep learning" 20 empty_session).1 =
  Ok [PDict {[ "title" := PStr "Deep Learning for X";
               "abstract" := PStr "We study deep learning.";
               "url" := PStr "https://pubmed.ncbi.nlm.nih.gov/12345/";
               "year" := PInt 2021 ]}].
Proof.
  assert (H : Forall (λ a, readable a = true)
                     [untitled_article; good_article]).
  { repeat constructor. }
  split; [exact H|]. split; [reflexivity|].
  destruct (pubmed_skips_incomplete _ H) as (_ & Hadapter & _).
  eassert (Hsearch :
    pubmed_esearch
      (pubmed_world (article_set [untitled_article; good_article]))
      "deep learning" 20 empty_session = (Ok _, _))
    by (vm_compute; reflexivity).
  match type of Hsearch with
  | _ = (Ok ?ids, ?s1) =>
      eassert (Hfetch :
        pubmed_efetch
          (pubmed_world (article_set [untitled_article; good_article]))
          ids s1 = (Ok (article_set [untitled_article; good_article]), _))
        by (vm_compute; reflexivity)
  end.
  destruct (Hadapter _ _ _ _ _ _ _ _ Hsearch eq_refl Hfetch eq_refl)
    as [_ Hcached].
  assert (Hmiss : cache_pubmed empty_session !! ("deep learning", 20) = None)
    by (vm_compute; reflexivity).
  rewrite (Hcached Hmiss). vm_compute. reflexivity.
Defined.

(** C5, as stated, fails: an article without a title that also has no
    [PMID] is not skipped; reading its [PMID] raises, and the complete
    article fetched with it is lost as well. *)
Lemma pubmed_incomplete_not_skipped_counterexample :
  complete bad_article = false ∧
  pubmed_papers (article_set [good_article]) =
    Ok [PDict {[ "title" := PStr "Deep Learning for X";
                 "abstract" := PStr "We study deep learning.";
                 "url" := PStr "https://pubmed.ncbi.nlm.nih.gov/12345/";
                 "year" := PInt 2021 ]}] ∧
  pubmed_papers (article_set [bad_article; good_article]) =
    Err AttributeError ∧
  (search_pubmed (pubmed_world (article_set [bad_article; good_article]))
                 "deep learning" 20 empty_session).1 = Ok [].
Proof. vm_compute. repeat split. Qed.

(** C9. The loop body reads the [PMID] and parses [PubDate/Year] before it
    tests for a title and an abstract.  If one fetched article has no [PMID]
    element, or a [PubDate/Year] whose text [int] rejects, the loop raises;
    the exception is caught at the adapter boundary and the adapter returns
    the empty list: every article of that fetch is discarded, whether or not
    the offending article would have been skipped. *)
Theorem pubmed_malformed_discards_all (root : element) (a : element) :
  a ∈ findall_descendant "PubmedArticle" root →
  (find_descendant "PMID" a = None ∨
   ∃ y e, find_descendant_child "PubDate" "Year" a = Some y ∧
          py_int (text_of y) = Err e) →
  (∃ e, pubmed_papers root = Err e) ∧
  (∀ w query max_results s ids s1 s2,
     pubmed_esearch w query max_results s = (Ok ids, s1) →
     truthy ids = true →
     pubmed_efetch w ids s1 = (Ok root, s2) →
     search_pubmed_fn w query max_results s = (Ok [], s2) ∧
     (cache_pubmed s !! (query, max_results) = None →
        (search_pubmed w query max_results s).1 = Ok [])).
Proof.
  intros Hin Hbad.
  assert (Hr : readable a = false).
  { unfold readable. destruct Hbad as [->|(y & e & -> & ->)]; [done|].
    by destruct (find_descendant "PMID" a). }
  destruct (pubmed_loop_unreadable _ _ Hin Hr) as [e He].
  split; [by exists e|].
  intros w query max_results s ids s1 s2 Hsearch Hids Hfetch.
  assert (Hfn : search_pubmed_fn w query max_results s = (Ok [], s2)).
  { apply try_except_caught with e.
    unfold search_pubmed_try, mbind, M_bind.
    rewrite Hsearch, Hids. cbn. rewrite Hfetch.
    unfold lift, pubmed_papers. by rewrite He. }
  split; [done|].
  intros Hmiss. unfold search_pubmed, cached. by rewrite Hmiss, Hfn.
Qed.

(** ** [main] *)

Lemma pubmed_malformed_discards_all_witness :
  bad_article ∈
    findall_descendant "PubmedArticle" (article_set [bad_article; good_article]) ∧
  find_descendant "PMID" bad_article = None ∧
  (search_pubmed_fn (pubmed_world (article_set [bad_article; good_article]))
                    "deep learning" 20 empty_session).1 = Ok [].
Proof.
  assert (Hin : bad_article ∈
    findall_descendant "PubmedArticle" (article_set [bad_article; good_article])).
  { vm_compute. left. }
  assert (Hpm : find_descendant "PMID" bad_article = None) by reflexivity.
  split; [exact Hin|]. split; [exact Hpm|].
  destruct (pubmed_malformed_discards_all _ _ Hin (or_introl Hpm))
    as [_ Hadapter].
  edestruct (Hadapter
               (pubmed_world (article_set [bad_article; good_article]))
               "deep learning" 20 empty_session) as [Hfn _].
  - vm_compute. reflexivity.
  - reflexivity.
  - vm_compute. reflexivity.
  - rewrite Hfn. reflexivity.
Defined.

Lemma strip_input_truthy user_input :
  truthy (PStr (strip user_input)) = true →
  truthy (PStr user_input) = true.
Proof. by destruct user_input. Qed.

(** C4. When the three adapters return empty lists, [main] raises nothing
    and ends in the no-results state, which carries no ranked paper.  (A
    blank idea ends the run earlier, without any call and also without a
    ranked paper.) *)
Theorem main_all_sources_empty (w : world) (user_input : string)
    (start_year end_year num_results : Z) (s : session) :
  (truthy (PStr (strip user_input)) = false →
     ∃ o, main w user_input start_year end_year num_results s = (Ok o, s) ∧
          ranked_of o = []) ∧
  (∀ idea_embedding rest s1 s2 s3 s4,
     truthy (PStr (strip user_input)) = true →
     embed_texts w [strip user_input] s = (Ok (idea_embedding :: rest), s1) →
     search_semantic_scholar w (strip user_input) num_results s1
       = (Ok (PList []), s2) →
     search_arxiv w (strip user_input) num_results s2 = (Ok [], s3) →
     search_pubmed w (strip user_input) num_results s3 = (Ok [], s4) →
     main w user_input start_year end_year num_results s = (Ok NoPapers, s4) ∧
     ranked_of NoPapers = []).
Proof.
  split.
  - intros Hblank. unfold main.
    destruct (negb (truthy (PStr user_input))); [by exists NoInput|].
    rewrite Hblank. by exists InvalidIdea.
  - intros idea_embedding rest s1 s2 s3 s4 Hq Hembed Hss Harxiv Hpubmed.
    split; [|done]. unfold main.
    rewrite (strip_input_truthy _ Hq), Hq. cbn [negb].
    unfold mbind, M_bind. rewrite Hembed. cbn [lift index lookup].
    by rewrite Hss, Harxiv, Hpubmed.
Qed.

Lemma main_all_sources_empty_witness :
  (main offline_world "deep learning" 2020 2024 20 empty_session).1
  = Ok NoPapers.
Proof.
  edestruct (proj2 (main_all_sources_empty offline_world "deep learning"
                      2020 2024 20 empty_session)) as [Hmain _].
  - reflexivity.
  - vm_compute. reflexivity.
  - vm_compute. reflexivity.
  - vm_compute. reflexivity.
  - vm_compute. reflexivity.
  - rewrite Hmain. reflexivity.
Defined.

(** *** Caching *)

Lemma caches_le_refl s : caches_le s s.
Proof. by repeat split. Qed.

Lemma caches_le_trans s1 s2 s3 :
  caches_le s1 s2 → caches_le s2 s3 → caches_le s1 s3.
Proof.
  intros (?&?&?&?) (?&?&?&?). repeat split; by etrans.
Qed.

Lemma same_caches_le s1 s2 : same_caches s1 s2 → caches_le s1 s2.
Proof. intros (H1&H2&H3&H4). unfold caches_le. by rewrite H1, H2, H3, H4. Qed.

Lemma same_caches_trans s1 s2 s3 :
  same_caches s1 s2 → same_caches s2 s3 → same_caches s1 s3.
Proof. intros (?&?&?&?) (?&?&?&?). repeat split; congruence. Qed.

Lemma keeps_caches_ret {A} (a : A) : keeps_caches (mret a).
Proof. intros s r s' [= _ <-]. by repeat split. Qed.

Lemma keeps_caches_lift {A} (r : result A) : keeps_caches (lift r).
Proof. intros s r' s' [= _ <-]. by repeat split. Qed.

Lemma keeps_caches_bind {A B} (m : M A) (f : A → M B) :
  keeps_caches m → (∀ a, keeps_caches (f a)) → keeps_caches (m ≫= f).
Proof.
  intros Hm Hf s r s'. unfold mbind, M_bind.
  destruct (m s) as [[a|e] s1] eqn:Hms.
  - intros Hfa. eapply same_caches_trans; [by eapply Hm|by eapply Hf].
  - intros [= _ <-]. by eapply Hm.
Qed.

Lemma keeps_caches_try_except {A} (body : M A) (handler : exn → M A) :
  keeps_caches body → (∀ e, keeps_caches (handler e)) →
  keeps_caches (try_except body handler).
Proof.
  intros Hb Hh s r s'. unfold try_except.
  destruct (body s) as [[a|e] s1] eqn:Hbs.
  - intros [= _ <-]. by eapply Hb.
  - intros Hhe. eapply same_caches_trans; [by eapply Hb|by eapply Hh].
Qed.

Lemma keeps_caches_requests_get w req : keeps_caches (requests_get w req).
Proof. intros s r s' [= _ <-]. by repeat split. Qed.

Lemma keeps_caches_embed_texts_fn w texts :
  keeps_caches (embed_texts_fn w texts).
Proof. intros s r s' [= _ <-]. by repeat split. Qed.

Lemma never_raises_try_except {A} (body : M A) (fallback : A) :
  never_raises (try_except body (λ _, mret fallback)).
Proof. intros s. apply try_except_ok. Qed.

Lemma replayable_ret {A} (a : A) : replayable (mret a).
Proof.
  intros s r s' [= <- <-]. split; [apply caches_le_refl|done].
Qed.

Lemma replayable_lift {A} (r : result A) : replayable (lift r).
Proof.
  intros s r' s' [= <- <-]. split; [apply caches_le_refl|done].
Qed.

Lemma replayable_bind {A B} (m : M A) (f : A → M B) :
  replayable m → (∀ a, replayable (f a)) → replayable (m ≫= f).
Proof.
  intros Hm Hf s r s'. unfold mbind, M_bind.
  destruct (m s) as [[a|e] s1] eqn:Hms.
  - intros Hfa.
    destruct (Hm _ _ _ Hms) as [Hle1 Hre1].
    destruct (Hf a _ _ _ Hfa) as [Hle2 Hre2].
    split; [by eapply caches_le_trans|].
    intros s'' Hle.
    rewrite (Hre1 s'') by (by eapply caches_le_trans).
    by apply Hre2.
  - intros [= <- <-].
    destruct (Hm _ _ _ Hms) as [Hle1 Hre1].
    split; [done|]. intros s'' Hle. by rewrite (Hre1 s'').
Qed.

(** A cached function that always returns and leaves the caches alone can
    be replayed: the second call is a hit. *)
Lemma replayable_cached {K V} `{Countable K}
    (get : session → gmap K V) (set : gmap K V → session → session)
    (key : K) (f : M V) :
  (∀ c s, get (set c s) = c) →
  (∀ s1 s2, caches_le s1 s2 → get s1 ⊆ get s2) →
  (∀ c s, get s ⊆ c → caches_le s (set c s)) →
  (∀ s1 s2, same_caches s1 s2 → get s1 = get s2) →
  keeps_caches f → never_raises f →
  replayable (cached get set key f).
Proof.
  intros Hgs Hle Hset Hsame Hkeep Hok s r s'. unfold cached.
  destruct (get s !! key) as [v|] eqn:Hhit.
  - intros [= <- <-]. split; [apply caches_le_refl|].
    intros s'' Hs''.
    by rewrite (lookup_weaken _ _ _ _ Hhit (Hle _ _ Hs'')).
  - destruct (Hok s) as (v & s1 & Hf). rewrite Hf. intros [= <- <-].
    pose proof (Hkeep _ _ _ Hf) as Hsc.
    assert (Hmiss : get s1 !! key = None) by (by rewrite <- (Hsame _ _ Hsc)).
    split.
    + eapply caches_le_trans; [by apply same_caches_le|].
      apply Hset. by apply insert_subseteq.
    + intros s'' Hs''. apply Hle in Hs''. rewrite Hgs in Hs''.
      by rewrite (lookup_weaken _ _ _ _ (lookup_insert_eq _ _ _) Hs'').
Qed.

Lemma replayable_search_semantic_scholar w query limit :
  replayable (search_semantic_scholar w query limit).
Proof.
  apply replayable_cached.
  - done.
  - by intros s1 s2 (?&?&?&?).
  - intros c s Hc. by repeat split.
  - by intros s1 s2 (?&?&?&?).
  - apply keeps_caches_try_except; [|intros; apply keeps_caches_ret].
    apply keeps_caches_bind; [apply keeps_caches_requests_get|].
    intros; apply keeps_caches_lift.
  - apply never_raises_try_except.
Qed.

Lemma replayable_search_arxiv w query max_results :
  replayable (search_arxiv w query max_results).
Proof.
  apply replayable_cached.
  - done.
  - by intros s1 s2 (?&?&?&?).
  - intros c s Hc. by repeat split.
  - by intros s1 s2 (?&?&?&?).
  - apply keeps_caches_try_except; [|intros; apply keeps_caches_ret].
    apply keeps_caches_bind; [apply keeps_caches_requests_get|].
    intros; apply keeps_caches_lift.
  - apply never_raises_try_except.
Qed.

Lemma replayable_search_pubmed w query max_results :
  replayable (search_pubmed w query max_results).
Proof.
  apply replayable_cached.
  - done.
  - by intros s1 s2 (?&?&?&?).
  - intros c s Hc. by repeat split.
  - by intros s1 s2 (?&?&?&?).
  - apply keeps_caches_try_except; [|intros; apply keeps_caches_ret].
    apply keeps_caches_bind.
    + apply keeps_caches_bind; [apply keeps_caches_requests_get|].
      intros; apply keeps_caches_lift.
    + intros ids. destruct (negb (truthy ids)); [apply keeps_caches_ret|].
      apply keeps_caches_bind; [|intros; apply keeps_caches_lift].
      apply keeps_caches_bind; [apply keeps_caches_lift|].
      intros id. apply keeps_caches_bind; [apply keeps_caches_requests_get|].
      intros; apply keeps_caches_lift.
  - apply never_raises_try_except.
Qed.

Lemma replayable_embed_texts w texts : replayable (embed_texts w texts).
Proof.
  apply replayable_cached.
  - done.
  - by intros s1 s2 (?&?&?&?).
  - intros c s Hc. by repeat split.
  - by intros s1 s2 (?&?&?&?).
  - apply keeps_caches_embed_texts_fn.
  - intros s. by eexists _, _.
Qed.

Lemma replayable_main w user_input start_year end_year num_results :
  replayable (main w user_input start_year end_year num_results).
Proof.
  unfold main.
  destruct (negb (truthy (PStr user_input))); [apply replayable_ret|].
  destruct (negb (truthy (PStr (strip user_input)))); [apply replayable_ret|].
  apply replayable_bind; [apply replayable_embed_texts|]. intros embs.
  apply replayable_bind; [apply replayable_lift|]. intros idea.
  apply replayable_bind; [apply replayable_search_semantic_scholar|].
  intros ss.
  apply replayable_bind; [apply replayable_search_arxiv|]. intros arxiv.
  apply replayable_bind; [apply replayable_search_pubmed|]. intros pubmed.
  apply replayable_bind; [apply replayable_lift|]. intros all_papers.
  apply replayable_bind; [apply replayable_lift|]. intros filtered.
  destruct filtered as [|p filtered]; [apply replayable_ret|].
  apply replayable_bind; [apply replayable_lift|]. intros texts.
  apply replayable_bind; [apply replayable_embed_texts|]. intros pembs.
  apply replayable_bind; [apply replayable_lift|]. intros scored_papers.
  apply replayable_bind; [apply replayable_lift|]. intros entries.
  apply replayable_ret.
Qed.

(** C8. Submitting the same idea with the same year range and the same
    number of results per source a second time in one session sends no
    request and runs the model no further: every cached call is a hit, the
    session is left exactly as the first run left it, and the second run
    ends with the same outcome (the same ranked list and display entries,
    or the same exception) as the first, whatever the services or the
    model would answer if asked again. *)
Theorem main_repeat_is_cached (w : world) (user_input : string)
    (start_year end_year num_results : Z) (s : session) :
  let first := main w user_input start_year end_year num_results s in
  let second := main w user_input start_year end_year num_results first.2 in
  second.1 = first.1 ∧
  second.2 = first.2 ∧
  net_log second.2 = net_log first.2 ∧
  model_log second.2 = model_log first.2.
Proof.
  intros first second. subst second.
  destruct first as [r s1] eqn:Hfirst. subst first.
  destruct (replayable_main _ _ _ _ _ _ _ _ Hfirst) as [_ Hreplay].
  cbn [fst snd]. rewrite (Hreplay s1 (caches_le_refl s1)). done.
Qed.

(** What [main] shows is the ranking of the scored papers. *)
Lemma main_shown_is_ranked w user_input start_year end_year num_results s
    scored_papers entries s' :
  main w user_input start_year end_year num_results s
    = (Ok (Shown scored_papers entries), s') →
  ∃ idea_embedding paper_embeddings filtered scored,
    score_papers w idea_embedding paper_embeddings 0 filtered = Ok scored ∧
    scored_papers = rank_papers scored.
Proof.
  unfold main, mbind, M_bind, mret, M_ret, lift.
  repeat (case_match; try discriminate).
  intros [= <- _ _]. by eexists _, _, _, _.
Qed.

Example main_repeat_example :
  let w := pubmed_world (article_set [good_article; untitled_article]) in
  let first := main w "deep learning" 2020 2024 20 empty_session in
  let second := main w "deep learning" 2020 2024 20 first.2 in
  length (ranked_of (match first.1 with Ok o => o | Err _ => NoInput end)) = 1%nat ∧
  length (net_log first.2) = 4%nat ∧ length (model_log first.2) = 2%nat ∧
  length (net_log second.2) = 4%nat ∧ length (model_log second.2) = 2%nat.
Proof. vm_compute. repeat split. Qed.

(** ** Further properties of the adapters *)

Lemma string_length_app a b :
  String.length (a +:+ b) = (String.length a + String.length b)%nat.
Proof. induction a as [|c a IH]; [done|]. cbn. by rewrite IH. Qed.

Lemma requests_get_run w req s :
  requests_get w req s = (http_get w (length (net_log s)) req, log_request req s).
Proof. reflexivity. Qed.

Lemma failed_reply_raises {A} w req s (k : response → result A) :
  failed_reply (http_get w (length (net_log s)) req) = true →
  ∃ e, (requests_get w req ≫= λ response,
          lift (_ ← raise_for_status response; k response)) s
       = (Err e, log_request req s).
Proof.
  unfold mbind at 1. unfold M_bind. rewrite requests_get_run.
  destruct (http_get _ _ _) as [r|e]; cbn [failed_reply].
  - intros Hst. unfold lift, raise_for_status. rewrite Hst. by eexists.
  - intros _. by eexists.
Qed.

(** X1. When the first request of an adapter does not get through (the call
    raises, or the reply has a 4xx or 5xx status), the adapter returns the
    empty list whatever the body of the reply, and it has sent that one
    request only; for PubMed the fetch-by-id request is not sent. *)
Theorem failed_request_gives_empty (w : world) (query : string) (limit : Z)
    (s : session) :
  (failed_reply (http_get w (length (net_log s))
                   (semantic_scholar_request query limit)) = true →
   search_semantic_scholar_fn w query limit s =
   (Ok (PList []), log_request (semantic_scholar_request query limit) s)) ∧
  (failed_reply (http_get w (length (net_log s))
                   (arxiv_request query limit)) = true →
   search_arxiv_fn w query limit s =
   (Ok [], log_request (arxiv_request query limit) s)) ∧
  (failed_reply (http_get w (length (net_log s))
                   (esearch_request query limit)) = true →
   search_pubmed_fn w query limit s =
   (Ok [], log_request (esearch_request query limit) s)).
Proof.
  split; [|split]; intros Hfail.
  - destruct (failed_reply_raises w _ s
                (λ response, reply ← response_json w response;
                             py_get_default reply "data" (PList [])) Hfail)
      as [e He].
    by apply try_except_caught with e.
  - destruct (failed_reply_raises w _ s
                (λ response, root ← fromstring w (body response);
                             mapM (arxiv_entry w) (findall_atom "entry" root))
                Hfail) as [e He].
    by apply try_except_caught with e.
  - destruct (failed_reply_raises w _ s
                (λ response, reply ← response_json w response;
                             esearchresult ← py_getitem reply "esearchresult";
                             py_getitem esearchresult "idlist") Hfail)
      as [e He].
    apply try_except_caught with e.
    unfold search_pubmed_try. unfold mbind at 1. unfold M_bind.
    unfold pubmed_esearch.
    change (esearch_request query limit) with
      {| req_url := base_url +:+ "esearch.fcgi";
         req_params := [("db", PStr "pubmed"); ("term", PStr query);
                        ("retmax", PInt limit);
                        ("retmode", PStr "json")] |} in He.
    by rewrite He.
Qed.

Lemma failed_request_gives_empty_witness :
  failed_reply (http_get offline_world (length (net_log empty_session))
                  (semantic_scholar_request "deep learning" 20)) = true ∧
  search_semantic_scholar_fn offline_world "deep learning" 20 empty_session =
  (Ok (PList []),
   log_request (semantic_scholar_request "deep learning" 20) empty_session).
Proof.
  assert (H : failed_reply
                (http_get offline_world (length (net_log empty_session))
                   (semantic_scholar_request "deep learning" 20)) = true)
    by reflexivity.
  split; [exact H|].
  exact (proj1 (failed_request_gives_empty offline_world "deep learning" 20
                  empty_session) H).
Defined.

Lemma pubmed_esearch_log w query max_results s r s' :
  pubmed_esearch w query max_results s = (r, s') →
  s' = log_request (esearch_request query max_results) s.
Proof.
  unfold pubmed_esearch, mbind, M_bind. rewrite requests_get_run.
  destruct (http_get _ _ _) as [resp|e]; unfold lift; by intros [= _ <-].
Qed.

(** X2. When the PubMed id search returns no id (an empty list, or any
    other falsy value), the adapter returns the empty list at once: the only
    request it has sent is the id search, and no fetch-by-id follows. *)
Theorem pubmed_no_ids_no_fetch (w : world) (query : string) (max_results : Z)
    (s s1 : session) (ids : pyval) :
  pubmed_esearch w query max_results s = (Ok ids, s1) →
  truthy ids = false →
  search_pubmed_fn w query max_results s = (Ok [], s1) ∧
  net_log s1 = net_log s ++ [esearch_request query max_results].
Proof.
  intros Hsearch Hids. split.
  - unfold search_pubmed_fn, try_except, search_pubmed_try, mbind, M_bind.
    by rewrite Hsearch, Hids.
  - by rewrite (pubmed_esearch_log _ _ _ _ _ _ Hsearch).
Qed.

Lemma pubmed_no_ids_no_fetch_witness :
  (search_pubmed_fn no_ids_world "deep learning" 20 empty_session).1 = Ok [] ∧
  length (net_log (search_pubmed_fn no_ids_world "deep learning" 20
                     empty_session).2) = 1%nat.
Proof.
  edestruct (pubmed_no_ids_no_fetch no_ids_world "deep learning" 20
               empty_session) as [Hfn Hlog].
  - vm_compute. reflexivity.
  - reflexivity.
  - rewrite Hfn. cbn [fst snd]. rewrite Hlog. split; reflexivity.
Defined.

(** *** Failures are cached *)

Lemma cached_miss {K V} `{Countable K} (get : session → gmap K V) set key
    (f : M V) s v s1 :
  get s !! key = None → f s = (Ok v, s1) →
  cached get set key f s = (Ok v, set (<[key := v]> (get s1)) s1).
Proof. unfold cached. by intros -> ->. Qed.

Lemma cached_hit {K V} `{Countable K} (get : session → gmap K V) set key
    (f : M V) s v :
  get s !! key = Some v → cached get set key f s = (Ok v, s).
Proof. unfold cached. by intros ->. Qed.

(** X3. An adapter call that fails is not retried within the session: the
    exception is turned into the empty list inside the cached function, so
    the empty list is what the cache stores for these arguments, and every
    later call with the same query and limit returns the empty list from the
    cache without a request, even when the service would answer by then. *)
Theorem failed_fetch_is_cached (w : world) (query : string) (limit : Z)
    (s : session) :
  (∀ e s1,
     cache_semantic_scholar s !! (query, limit) = None →
     search_semantic_scholar_try w query limit s = (Err e, s1) →
     ∃ s2, search_semantic_scholar w query limit s = (Ok (PList []), s2) ∧
       ∀ w' s3, cache_semantic_scholar s2 ⊆ cache_semantic_scholar s3 →
         search_semantic_scholar w' query limit s3 = (Ok (PList []), s3)) ∧
  (∀ e s1,
     cache_arxiv s !! (query, limit) = None →
     search_arxiv_try w query limit s = (Err e, s1) →
     ∃ s2, search_arxiv w query limit s = (Ok [], s2) ∧
       ∀ w' s3, cache_arxiv s2 ⊆ cache_arxiv s3 →
         search_arxiv w' query limit s3 = (Ok [], s3)) ∧
  (∀ e s1,
     cache_pubmed s !! (query, limit) = None →
     search_pubmed_try w query limit s = (Err e, s1) →
     ∃ s2, search_pubmed w query limit s = (Ok [], s2) ∧
       ∀ w' s3, cache_pubmed s2 ⊆ cache_pubmed s3 →
         search_pubmed w' query limit s3 = (Ok [], s3)).
Proof.
  split; [|split]; intros e s1 Hmiss Hraise;
    eexists; (split;
      [ apply cached_miss; [exact Hmiss|];
        by apply try_except_caught with e
      | intros w' s3 Hsub; apply cached_hit;
        eapply lookup_weaken; [|exact Hsub]; apply lookup_insert_eq ]).
Qed.

Lemma failed_fetch_is_cached_witness :
  (search_pubmed_try offline_world "deep learning" 20 empty_session).1
    = Err RequestException ∧
  (search_pubmed (pubmed_world (article_set [good_article]))
     "deep learning" 20
     (search_pubmed offline_world "deep learning" 20 empty_session).2).1
  = Ok [].
Proof.
  split; [reflexivity|].
  destruct (proj2 (proj2 (failed_fetch_is_cached offline_world
                            "deep learning" 20 empty_session))
              RequestException
              (log_request (esearch_request "deep learning" 20) empty_session))
    as (s2 & Hfirst & Hlater).
  - reflexivity.
  - reflexivity.
  - rewrite Hfirst. cbn [snd]. by rewrite Hlater.
Defined.

(** *** What a run sends *)

Lemma effects_ret {A} (a : A) : effects 0 0 (mret a).
Proof.
  intros s r s' [= _ <-]. exists [], []. by rewrite !app_nil_r.
Qed.

Lemma effects_lift {A} (r : result A) : effects 0 0 (lift r).
Proof.
  intros s r' s' [= _ <-]. exists [], []. by rewrite !app_nil_r.
Qed.

Lemma effects_weaken {A} a b a' b' (m : M A) :
  effects a b m → (a ≤ a')%nat → (b ≤ b')%nat → effects a' b' m.
Proof.
  intros Hm Ha Hb s r s' Hrun.
  destruct (Hm _ _ _ Hrun) as (sent & enc & ? & ? & ? & ? & ?).
  exists sent, enc. repeat split; try done; lia.
Qed.

Lemma effects_bind {A B} a b c d (m : M A) (f : A → M B) :
  effects a b m → (∀ x, effects c d (f x)) → effects (a + c) (b + d) (m ≫= f).
Proof.
  intros Hm Hf s r s'. unfold mbind, M_bind.
  destruct (m s) as [[x|e] s1] eqn:Hms.
  - intros Hfx.
    destruct (Hm _ _ _ Hms) as (sent1 & enc1 & Hn1 & Hm1 & Hl1 & Hk1 & Hu1).
    destruct (Hf x _ _ _ Hfx) as (sent2 & enc2 & Hn2 & Hm2 & Hl2 & Hk2 & Hu2).
    exists (sent1 ++ sent2), (enc1 ++ enc2).
    rewrite Hn2, Hn1, Hm2, Hm1, !app_assoc, !length_app.
    repeat split; try done; try lia. by apply Forall_app.
  - intros [= <- <-].
    destruct (Hm _ _ _ Hms) as (sent1 & enc1 & Hn1 & Hm1 & Hl1 & Hk1 & Hu1).
    exists sent1, enc1. repeat split; try done; lia.
Qed.

Lemma effects_try_except {A} a b c d (body : M A) (handler : exn → M A) :
  effects a b body → (∀ e, effects c d (handler e)) →
  effects (a + c) (b + d) (try_except body handler).
Proof.
  intros Hb Hh s r s'. unfold try_except.
  destruct (body s) as [[x|e] s1] eqn:Hbs.
  - intros [= <- <-].
    destruct (Hb _ _ _ Hbs) as (sent1 & enc1 & Hn1 & Hm1 & Hl1 & Hk1 & Hu1).
    exists sent1, enc1. repeat split; try done; lia.
  - intros He.
    destruct (Hb _ _ _ Hbs) as (sent1 & enc1 & Hn1 & Hm1 & Hl1 & Hk1 & Hu1).
    destruct (Hh e _ _ _ He) as (sent2 & enc2 & Hn2 & Hm2 & Hl2 & Hk2 & Hu2).
    exists (sent1 ++ sent2), (enc1 ++ enc2).
    rewrite Hn2, Hn1, Hm2, Hm1, !app_assoc, !length_app.
    repeat split; try done; try lia. by apply Forall_app.
Qed.

Lemma effects_requests_get w req :
  known_endpoint req = true → effects 1 0 (requests_get w req).
Proof.
  intros Hreq s r s' [= _ <-]. exists [req], []. cbn.
  rewrite app_nil_r. repeat split; try done. by constructor.
Qed.

Lemma effects_cached {K V} `{Countable K} a b
    (get : session → gmap K V) set key (f : M V) :
  (∀ c s, net_log (set c s) = net_log s) →
  (∀ c s, model_log (set c s) = model_log s) →
  effects a b f → effects a b (cached get set key f).
Proof.
  intros Hn Hm Hf s r s'. unfold cached.
  destruct (get s !! key) as [v|].
  - intros [= _ <-]. exists [], []. rewrite !app_nil_r.
    repeat split; try done; cbn; lia.
  - destruct (f s) as [[v|e] s1] eqn:Hfs.
    + intros [= _ <-]. rewrite Hn, Hm. by eapply Hf.
    + intros [= _ <-]. by eapply Hf.
Qed.

Lemma effects_search_semantic_scholar w query limit :
  effects 1 0 (search_semantic_scholar w query limit).
Proof.
  apply effects_cached; [done|done|].
  apply (effects_try_except 1 0 0 0); [|intros; apply effects_ret].
  apply (effects_bind 1 0 0 0); [by apply effects_requests_get|].
  intros; apply effects_lift.
Qed.

Lemma effects_search_arxiv w query max_results :
  effects 1 0 (search_arxiv w query max_results).
Proof.
  apply effects_cached; [done|done|].
  apply (effects_try_except 1 0 0 0); [|intros; apply effects_ret].
  apply (effects_bind 1 0 0 0); [by apply effects_requests_get|].
  intros; apply effects_lift.
Qed.

Lemma effects_search_pubmed w query max_results :
  effects 2 0 (search_pubmed w query max_results).
Proof.
  apply effects_cached; [done|done|].
  apply (effects_try_except 2 0 0 0); [|intros; apply effects_ret].
  apply (effects_bind 1 0 1 0).
  - apply (effects_bind 1 0 0 0); [by apply effects_requests_get|].
    intros; apply effects_lift.
  - intros ids. destruct (negb (truthy ids)).
    + eapply effects_weaken; [apply effects_ret|lia|lia].
    + apply (effects_bind 1 0 0 0); [|intros; apply effects_lift].
      apply (effects_bind 0 0 1 0); [apply effects_lift|].
      intros id. apply (effects_bind 1 0 0 0);
        [by apply effects_requests_get|].
      intros; apply effects_lift.
Qed.

Lemma effects_embed_texts w texts : effects 0 1 (embed_texts w texts).
Proof.
  apply effects_cached; [done|done|].
  intros s r s' [= _ <-]. exists [], [texts]. cbn.
  rewrite app_nil_r. repeat split; try done.
Qed.

Lemma effects_main w user_input start_year end_year num_results :
  effects 4 2 (main w user_input start_year end_year num_results).
Proof.
  unfold main.
  destruct (negb (truthy (PStr user_input)));
    [eapply effects_weaken; [apply effects_ret|lia|lia]|].
  destruct (negb (truthy (PStr (strip user_input))));
    [eapply effects_weaken; [apply effects_ret|lia|lia]|].
  apply (effects_bind 0 1 4 1); [apply effects_embed_texts|]. intros embs.
  apply (effects_bind 0 0 4 1); [apply effects_lift|]. intros idea.
  apply (effects_bind 1 0 3 1); [apply effects_search_semantic_scholar|].
  intros ss.
  apply (effects_bind 1 0 2 1); [apply effects_search_arxiv|]. intros arxiv.
  apply (effects_bind 2 0 0 1); [apply effects_search_pubmed|]. intros pubmed.
  apply (effects_bind 0 0 0 1); [apply effects_lift|]. intros all_papers.
  apply (effects_bind 0 0 0 1); [apply effects_lift|]. intros filtered.
  destruct filtered as [|p filtered];
    [eapply effects_weaken; [apply effects_ret|lia|lia]|].
  apply (effects_bind 0 0 0 1); [apply effects_lift|]. intros texts.
  apply (effects_bind 0 1 0 0); [apply effects_embed_texts|]. intros pembs.
  apply (effects_bind 0 0 0 0); [apply effects_lift|]. intros scored_papers.
  apply (effects_bind 0 0 0 0); [apply effects_lift|]. intros entries.
  apply effects_ret.
Qed.

(** X4. One run of [main], whatever its inputs and whatever the session
    holds, sends at most four requests and runs the model at most twice; it
    only appends to the logs of requests and model runs, every request goes
    to one of the three services, and no cache entry is removed or
    replaced. *)
Theorem main_effects_bounded (w : world) (user_input : string)
    (start_year end_year num_results : Z) (s s' : session)
    (r : result outcome) :
  main w user_input start_year end_year num_results s = (r, s') →
  (∃ sent encoded,
     net_log s' = net_log s ++ sent ∧
     model_log s' = model_log s ++ encoded ∧
     (length sent ≤ 4)%nat ∧ (length encoded ≤ 2)%nat ∧
     Forall (λ req, known_endpoint req = true) sent) ∧
  caches_le s s'.
Proof.
  intros Hrun. split.
  - by eapply effects_main.
  - by eapply replayable_main.
Qed.

Lemma main_effects_bounded_witness :
  let run := main (pubmed_world (article_set [good_article]))
                  "deep learning" 2020 2024 20 empty_session in
  ∃ sent encoded,
    net_log run.2 = net_log empty_session ++ sent ∧
    model_log run.2 = model_log empty_session ++ encoded ∧
    (length sent ≤ 4)%nat ∧ (length encoded ≤ 2)%nat ∧
    Forall (λ req, known_endpoint req = true) sent.
Proof.
  intros run.
  exact (proj1 (main_effects_bounded _ _ _ _ _ _ _ _
                  (surjective_pairing run))).
Defined.

(** ** Further properties of the input handling *)

Lemma lstrip_all_space s : all_space (lstrip s) = all_space s.
Proof.
  unfold all_space. induction s as [|c s IH]; [done|]. cbn.
  destruct (is_space c) eqn:Hc; [done|]. cbn. by rewrite Hc.
Qed.

Lemma rstrip_all_space s : all_space (rstrip s) = all_space s.
Proof.
  unfold all_space. induction s as [|c s IH]; [done|]. cbn.
  destruct (rstrip s) as [|d r].
  - rewrite <- IH. destruct (is_space c) eqn:Hc; cbn; by rewrite ?Hc.
  - rewrite <- IH. done.
Qed.

Lemma strip_all_space s : all_space (strip s) = all_space s.
Proof. unfold strip. by rewrite rstrip_all_space, lstrip_all_space. Qed.

Lemma lstrip_head s :
  match lstrip s with
  | EmptyString => True
  | String c _ => is_space c = false
  end.
Proof.
  induction s as [|c s IH]; [done|]. cbn.
  by destruct (is_space c) eqn:Hc.
Qed.

Lemma rstrip_nonspace_head c s :
  is_space c = false → rstrip (String c s) ≠ "".
Proof. intros Hc. cbn. destruct (rstrip s); by rewrite ?Hc. Qed.

(** [strip] leaves nothing exactly when the text is whitespace only. *)
Lemma strip_empty_iff s : strip s = "" ↔ all_space s = true.
Proof.
  split.
  - intros H. by rewrite <- strip_all_space, H.
  - intros H. unfold strip. rewrite <- lstrip_all_space in H.
    pose proof (lstrip_head s) as Hh.
    destruct (lstrip s) as [|c r]; [done|].
    unfold all_space in H. cbn in H. by rewrite Hh in H.
Qed.

Lemma truthy_strip_iff s :
  truthy (PStr (strip s)) = false ↔ all_space s = true.
Proof.
  rewrite <- strip_empty_iff. cbn. rewrite negb_false_iff.
  apply String.eqb_eq.
Qed.

(** X5. [main] distinguishes three kinds of input.  With the empty text it
    does nothing; with a non-empty text made of whitespace only it stops at
    the warning for an invalid idea; in both cases the session is left
    untouched (no request, no model run, no cache entry).  An input with a
    character that is not whitespace never ends in one of these two
    outcomes. *)
Theorem main_blank_input (w : world) (user_input : string)
    (start_year end_year num_results : Z) (s : session) :
  ((main w user_input start_year end_year num_results s).1 = Ok NoInput
     ↔ user_input = "") ∧
  ((main w user_input start_year end_year num_results s).1 = Ok InvalidIdea
     ↔ user_input ≠ "" ∧ all_space user_input = true) ∧
  (all_space user_input = true →
     (main w user_input start_year end_year num_results s).2 = s).
Proof.
  assert (Hother : all_space user_input = false →
    (main w user_input start_year end_year num_results s).1 ≠ Ok NoInput ∧
    (main w user_input start_year end_year num_results s).1 ≠ Ok InvalidIdea).
  { intros Hns.
    assert (Hq : truthy (PStr (strip user_input)) = true).
    { destruct (truthy (PStr (strip user_input))) eqn:E; [done|].
      apply truthy_strip_iff in E. congruence. }
    unfold main. rewrite (strip_input_truthy _ Hq), Hq. cbn [negb].
    unfold mbind, M_bind, mret, M_ret, lift.
    split; repeat (case_match; try discriminate); cbn; congruence. }
  destruct user_input as [|c rest] eqn:Hu.
  - repeat split; try done. by intros [? _].
  - rewrite <- Hu in *.
    assert (Hne : truthy (PStr user_input) = true) by (by rewrite Hu).
    destruct (all_space user_input) eqn:Hsp.
    + assert (Hq : truthy (PStr (strip user_input)) = false)
        by (by apply truthy_strip_iff).
      unfold main. rewrite Hne, Hq. cbn.
      repeat split; try done; rewrite Hu; done.
    + destruct (Hother eq_refl) as [H1 H2].
      split; [|split].
      * split; [done|]. rewrite Hu. done.
      * split; [done|]. by intros [_ ?].
      * done.
Qed.

(** *** The keywords of a query *)

Lemma is_space_lower_char c : is_space (lower_char c) = is_space c.
Proof. by destruct c as [[] [] [] [] [] [] [] []]. Qed.

Lemma lower_char_idemp c : lower_char (lower_char c) = lower_char c.
Proof. by destruct c as [[] [] [] [] [] [] [] []]. Qed.

Lemma lower_all_space s : all_space (lower s) = all_space s.
Proof.
  unfold all_space. induction s as [|c s IH]; [done|]. cbn.
  by rewrite is_space_lower_char, IH.
Qed.

Lemma lower_fixed s :
  all_chars (λ c, Ascii.eqb (lower_char c) c) s = true → lower s = s.
Proof.
  induction s as [|c s IH]; [done|]. cbn.
  intros [Hc Hs]%andb_true_iff. apply Ascii.eqb_eq in Hc.
  by rewrite Hc, IH.
Qed.

Lemma lower_is_lower s :
  all_chars (λ c, Ascii.eqb (lower_char c) c) (lower s) = true.
Proof.
  induction s as [|c s IH]; [done|]. cbn.
  by rewrite lower_char_idemp, Ascii.eqb_refl, IH.
Qed.

(** Every word of [split s] is a non-empty run of non-space characters of
    [s]: what holds of all characters of [s] holds of those of the words. *)
Lemma split_words P s :
  all_chars P s = true →
  Forall (λ w, w ≠ "" ∧ all_chars (λ c, negb (is_space c)) w = true ∧
               all_chars P w = true) (split s).
Proof.
  induction s as [|c s IH]; [constructor|].
  cbn [all_chars]. intros [Hc Hs]%andb_true_iff. specialize (IH Hs).
  cbn [split]. destruct (is_space c) eqn:Hsp; [done|].
  destruct s as [|d s'].
  - constructor; [|constructor]. cbn. by rewrite Hsp, Hc.
  - destruct (is_space d) eqn:Hd.
    + constructor; [|done]. cbn. by rewrite Hsp, Hc.
    + destruct (split (String d s')) as [|w ws].
      * constructor; [|constructor]. cbn. by rewrite Hsp, Hc.
      * apply Forall_cons in IH as [(Hw & Hwn & HwP) IH].
        constructor; [|done]. cbn. by rewrite Hsp, Hc, Hwn, HwP.
Qed.

Lemma split_nonempty s : all_space s = false → split s ≠ [].
Proof.
  unfold all_space. induction s as [|c s IH]; [done|].
  cbn. destruct (is_space c) eqn:Hc; cbn; [done|]. intros _.
  destruct s as [|d s']; [done|].
  destruct (is_space d); [done|]. by destruct (split (String d s')).
Qed.

(** X6. The keywords [main] derives from the idea ([query.lower().split()]
    after [strip]) are never empty strings, contain no whitespace and are in
    lower case; and when the idea is not blank there is at least one of
    them.  The highlighter is therefore never run with an empty keyword. *)
Theorem query_keywords_shape (user_input : string) :
  Forall keyword_shaped (split (lower (strip user_input))) ∧
  (all_space user_input = false → split (lower (strip user_input)) ≠ []).
Proof.
  split.
  - eapply Forall_impl; [apply split_words, lower_is_lower|].
    intros w (Hne & Hsp & Hlow). repeat split; try done.
    by apply lower_fixed.
  - intros Hns. apply split_nonempty.
    by rewrite lower_all_space, strip_all_space.
Qed.

(** ** Further properties of [main] *)

Lemma mapM_Forall2 {A B} (f : A → result B) l l' :
  mapM f l = Ok l' → Forall2 (λ x y, f x = Ok y) l l'.
Proof.
  revert l'. induction l as [|x l IH]; intros l'.
  - intros [= <-]. constructor.
  - cbn. destruct (f x) as [y|] eqn:Hx; cbn; [|discriminate].
    destruct (mapM f l) as [ys|]; cbn; [|discriminate].
    intros [= <-]. constructor; [done|]. by apply IH.
Qed.

(** What a run that shows results went through. *)
Lemma main_shown_inv w user_input start_year end_year num_results s
    scored_papers entries s' :
  main w user_input start_year end_year num_results s
    = (Ok (Shown scored_papers entries), s') →
  ∃ all_papers filtered idea_embedding paper_embeddings scored,
    all_space user_input = false ∧
    filtered_papers start_year end_year all_papers = Ok filtered ∧
    filtered ≠ [] ∧
    score_papers w idea_embedding paper_embeddings 0 filtered = Ok scored ∧
    scored_papers = rank_papers scored ∧
    mapM (render_entry w (split (lower (strip user_input)))) scored_papers
      = Ok entries.
Proof.
  unfold main.
  destruct (negb (truthy (PStr user_input))); [discriminate|].
  destruct (negb (truthy (PStr (strip user_input)))) eqn:Hq; [discriminate|].
  assert (Hns : all_space user_input = false).
  { destruct (all_space user_input) eqn:E; [|done].
    apply truthy_strip_iff in E. rewrite E in Hq. discriminate. }
  unfold mbind, M_bind, mret, M_ret, lift.
  destruct (embed_texts w [strip user_input] s) as [[embs|] s1];
    [|discriminate].
  destruct (index embs 0) as [idea|]; [|discriminate].
  destruct (search_semantic_scholar _ _ _ s1) as [[ss|] s2]; [|discriminate].
  destruct (search_arxiv _ _ _ s2) as [[arxiv|] s3]; [|discriminate].
  destruct (search_pubmed _ _ _ s3) as [[pubmed|] s4]; [|discriminate].
  destruct (concat_papers ss arxiv pubmed) as [all_papers|]; [|discriminate].
  destruct (filtered_papers start_year end_year all_papers)
    as [[|p filtered]|] eqn:Hf; [discriminate| |discriminate].
  destruct (mapM (paper_text w) (p :: filtered)) as [texts|]; [|discriminate].
  destruct (embed_texts w texts s4) as [[pembs|] s5]; [|discriminate].
  destruct (score_papers w idea pembs 0 (p :: filtered)) as [scored|] eqn:Hs;
    [|discriminate].
  destruct (mapM _ (rank_papers scored)) as [es|] eqn:Hr; [|discriminate].
  intros [= <- <- _].
  by exists all_papers, (p :: filtered), idea, pembs, scored.
Qed.

Lemma render_entry_displayable w keywords similarity p e :
  keywords ≠ [] →
  render_entry w keywords (similarity, p) = Ok e → displayable p.
Proof.
  intros Hk. unfold render_entry, py_getitem.
  destruct p as [| | | | | |fields]; try discriminate.
  destruct (fields !! "title") as [title|] eqn:Ht; [|discriminate]. cbn.
  unfold highlight_value at 1. destruct keywords as [|k ks]; [done|].
  destruct title as [| | | |title| |]; try discriminate. cbn.
  destruct (fields !! "abstract") as [abstract|] eqn:Ha; [|discriminate]. cbn.
  destruct abstract as [| | | |abstract| |]; try discriminate. cbn.
  destruct (fields !! "url") as [url|] eqn:Hu; [|discriminate]. cbn.
  destruct (fields !! "year") as [year|] eqn:Hy; [|discriminate]. cbn.
  intros _. by exists fields, title, abstract, url, year.
Qed.

Lemma displayable_render_entry w keywords similarity p :
  displayable p → ∃ e, render_entry w keywords (similarity, p) = Ok e.
Proof.
  intros (fields & title & abstract & url & year & -> & Ht & Ha & Hu & Hy).
  unfold render_entry, py_getitem. rewrite Ht. cbn.
  destruct keywords as [|k ks]; cbn; rewrite Ha; cbn; rewrite Hu; cbn;
    rewrite Hy; cbn; by eexists.
Qed.

Lemma render_entry_score w keywords item e :
  render_entry w keywords item = Ok e →
  entry_similarity e = item.1 ∧ entry_color e = tier_color item.1.
Proof.
  destruct item as [similarity p]. unfold render_entry.
  destruct (py_getitem p "title") as [t|]; [|discriminate]. cbn.
  destruct (highlight_value t keywords) as [ht|]; [|discriminate]. cbn.
  destruct (py_getitem p "abstract") as [a|]; [|discriminate]. cbn.
  destruct (highlight_value a keywords) as [ha|]; [|discriminate]. cbn.
  destruct (py_getitem p "url") as [u|]; [|discriminate]. cbn.
  destruct (py_getitem p "year") as [y|]; [|discriminate]. cbn.
  destruct (slice_1000 ha) as [sa|]; [|discriminate]. cbn.
  by intros [= <-].
Qed.

(** X7. With at least one keyword, a ranked paper can be displayed exactly
    when it is a [dict] whose title and abstract are strings and which has a
    url and a year; a title or abstract that is [None] or a number, or a
    missing url, makes the display step raise. *)
Theorem render_entry_iff_displayable (w : world) (keywords : list string)
    (similarity : Q) (p : pyval) :
  keywords ≠ [] →
  (∃ e, render_entry w keywords (similarity, p) = Ok e) ↔ displayable p.
Proof.
  intros Hk. split.
  - intros [e He]. by eapply render_entry_displayable.
  - apply displayable_render_entry.
Qed.

Lemma render_entry_iff_displayable_witness :
  ["deep"] ≠ [] ∧
  ¬ ∃ e, render_entry offline_world ["deep"]
           (1%Q, PDict {[ "title" := PNone; "abstract" := PStr "deep";
                          "url" := PStr "u"; "year" := PInt 2021 ]}) = Ok e.
Proof.
  assert (Hk : ["deep"] ≠ ([] : list string)) by discriminate.
  split; [exact Hk|].
  intros He.
  apply (proj1 (render_entry_iff_displayable _ _ _ _ Hk)) in He.
  destruct He as (fields & title & abstract & url & year & Hp & Ht & _).
  injection Hp as <-. vm_compute in Ht. discriminate.
Defined.

Lemma query_keywords_nonempty user_input :
  all_space user_input = false → split (lower (strip user_input)) ≠ [].
Proof.
  intros Hns. apply split_nonempty.
  by rewrite lower_all_space, strip_all_space.
Qed.

(** X8. Whenever [main] shows results, the ranked list is not empty, there
    is one display entry per ranked paper, and every ranked paper is a
    record with a string title, a non-empty string abstract, a url, and a
    year that is a non-zero number inside the chosen range, bounds
    included. *)
Theorem main_shown_invariant (w : world) (user_input : string)
    (start_year end_year num_results : Z) (s s' : session)
    (scored_papers : list scored) (entries : list entry) :
  main w user_input start_year end_year num_results s
    = (Ok (Shown scored_papers entries), s') →
  scored_papers ≠ [] ∧
  length entries = length scored_papers ∧
  ∀ similarity p, (similarity, p) ∈ scored_papers →
    ∃ fields title abstract url year,
      p = PDict fields ∧
      fields !! "title" = Some (PStr title) ∧
      fields !! "abstract" = Some (PStr abstract) ∧ abstract ≠ "" ∧
      fields !! "url" = Some url ∧
      fields !! "year" = Some year ∧ truthy year = true ∧
      year_between start_year end_year year.
Proof.
  intros (all_papers & filtered & idea & pembs & scored & Hns & Hf & Hne
          & Hs & -> & Hr)%main_shown_inv.
  pose proof (list_sort_reverse_perm fst scored) as Hperm.
  fold (rank_papers scored) in Hperm.
  pose proof (score_papers_order _ _ _ _ _ _ Hs) as Hord.
  apply mapM_Forall2 in Hr.
  split; [|split].
  - intros Hnil. rewrite Hnil in Hperm.
    apply Permutation_nil_l in Hperm. subst scored. by cbn in Hord.
  - symmetry. by eapply Forall2_length.
  - intros similarity p Hin.
    apply list_elem_of_lookup in Hin as [i Hi].
    destruct (Forall2_lookup_l _ _ _ _ _ Hr Hi) as (e & _ & He).
    apply render_entry_displayable in He;
      [|by apply query_keywords_nonempty].
    destruct He as (fields & title & abstract & url & year & -> & Ht
                    & Ha & Hu & Hy).
    assert (Hp : PDict fields ∈ filtered).
    { rewrite <- Hord. apply list_elem_of_fmap.
      exists (similarity, PDict fields). split; [done|].
      rewrite <- Hperm. by eapply list_elem_of_lookup_2. }
    destruct (filtered_papers_elem _ _ _ _ _ Hf Hp) as [_ Hk].
    apply keep_paper_true in Hk
      as (fields' & year' & [= <-] & Habs & Hyy & Hty & Hrange).
    rewrite Hy in Hyy. injection Hyy as <-.
    exists fields, title, abstract, url, year.
    rewrite Ha in Habs. cbn in Habs.
    repeat split; try done.
    intros ->. discriminate.
Qed.

Lemma main_shown_invariant_witness :
  match (main (pubmed_world (article_set [good_article; untitled_article]))
              "deep learning" 2020 2024 20 empty_session).1 with
  | Ok (Shown scored_papers entries) =>
      scored_papers ≠ [] ∧ length entries = length scored_papers
  | _ => False
  end.
Proof.
  assert (Hshown :
    match (main (pubmed_world (article_set [good_article; untitled_article]))
                "deep learning" 2020 2024 20 empty_session).1 with
    | Ok (Shown _ _) => true
    | _ => false
    end = true) by (vm_compute; reflexivity).
  destruct (main (pubmed_world (article_set [good_article; untitled_article]))
                 "deep learning" 2020 2024 20 empty_session)
    as [[[| | |scored_papers entries]|e] s'] eqn:Hrun;
    cbn [fst] in *; try discriminate Hshown.
  destruct (main_shown_invariant _ _ _ _ _ _ _ _ _ Hrun) as (H1 & H2 & _).
  by split.
Defined.

Lemma tier_color_green similarity :
  tier_color similarity = "green" ↔ (3 # 4 <= similarity)%Q.
Proof.
  unfold tier_color. rewrite <- Qle_bool_iff.
  destruct (Qle_bool (3 # 4) similarity); [done|].
  by destruct (Qle_bool (2 # 5) similarity).
Qed.

Lemma tier_color_red similarity :
  tier_color similarity = "red" ↔ (similarity < 2 # 5)%Q.
Proof.
  unfold tier_color.
  destruct (Qle_bool (3 # 4) similarity) eqn:H1.
  - apply Qle_bool_iff in H1. split; [done|]. intros H2.
    exfalso. apply (Qlt_irrefl (2 # 5)).
    eapply Qle_lt_trans; [|exact H2]. eapply Qle_trans; [|exact H1]. done.
  - destruct (Qle_bool (2 # 5) similarity) eqn:H2.
    + apply Qle_bool_iff in H2. split; [done|]. intros H3.
      by apply Qlt_not_le in H3.
    + split; [|done]. intros _. apply Qnot_le_lt. intros H.
      apply Qle_bool_iff in H. congruence.
Qed.

(** X9. The display entries follow the ranking: from one entry to the next
    the similarity never increases, so the colour tiers come in the order
    green, orange, red; no green entry follows an orange or red one and no
    orange entry follows a red one. *)
Theorem entries_follow_ranking (w : world) (user_input : string)
    (start_year end_year num_results : Z) (s s' : session)
    (scored_papers : list scored) (entries : list entry) :
  main w user_input start_year end_year num_results s
    = (Ok (Shown scored_papers entries), s') →
  ∀ i e1 e2, entries !! i = Some e1 → entries !! S i = Some e2 →
    (entry_similarity e2 <= entry_similarity e1)%Q ∧
    (entry_color e2 = "green" → entry_color e1 = "green") ∧
    (entry_color e1 = "red" → entry_color e2 = "red").
Proof.
  intros (all_papers & filtered & idea & pembs & scored & Hns & Hf & Hne
          & Hs & -> & Hr)%main_shown_inv i e1 e2 H1 H2.
  apply mapM_Forall2 in Hr.
  destruct (Forall2_lookup_r _ _ _ _ _ Hr H1) as (item1 & Hi1 & He1).
  destruct (Forall2_lookup_r _ _ _ _ _ Hr H2) as (item2 & Hi2 & He2).
  apply render_entry_score in He1 as [Hs1 Hc1].
  apply render_entry_score in He2 as [Hs2 Hc2].
  assert (Hle : (item2.1 <= item1.1)%Q).
  { exact (StronglySorted_adjacent _ _ _ _ _
             (list_sort_reverse_sorted fst scored) Hi1 Hi2). }
  rewrite Hs1, Hs2, Hc1, Hc2. split; [done|]. split.
  - rewrite !tier_color_green. intros H. by eapply Qle_trans.
  - rewrite !tier_color_red. intros H. by eapply Qle_lt_trans.
Qed.

Lemma entries_follow_ranking_witness :
  match (main (pubmed_world (article_set [good_article; good_article]))
              "deep learning" 2020 2024 20 empty_session).1 with
  | Ok (Shown _ (e1 :: e2 :: _)) =>
      (entry_similarity e2 <= entry_similarity e1)%Q
  | _ => False
  end.
Proof.
  assert (Hshown :
    match (main (pubmed_world (article_set [good_article; good_article]))
                "deep learning" 2020 2024 20 empty_session).1 with
    | Ok (Shown _ (_ :: _ :: _)) => true
    | _ => false
    end = true) by (vm_compute; reflexivity).
  destruct (main (pubmed_world (article_set [good_article; good_article]))
                 "deep learning" 2020 2024 20 empty_session)
    as [[[| | |scored_papers [|e1 [|e2 entries]]]|e] s'] eqn:Hrun;
    cbn [fst] in *; try discriminate Hshown.
  exact (proj1 (entries_follow_ranking _ _ _ _ _ _ _ _ _ Hrun
                  0%nat e1 e2 eq_refl eq_refl)).
Defined.

Example main_markup_title_raises :
  (main (pubmed_world (article_set [markup_title_article]))
        "deep learning" 2020 2024 20 empty_session).1 = Err TypeError.
Proof. vm_compute. reflexivity. Qed.

(** *** The scoring loop *)

Lemma score_papers_lookup w idea embs papers : ∀ idx scored,
  score_papers w idea embs idx papers = Ok scored →
  ∀ i p, papers !! i = Some p →
    ∃ e, embs !! (idx + i)%nat = Some e ∧
         scored !! i = Some (cos_sim w idea e, p).
Proof.
  induction papers as [|q papers IH]; intros idx scored Hs i p Hi; [done|].
  cbn [score_papers] in Hs. unfold index in Hs.
  destruct (embs !! idx) as [e0|] eqn:He0; [|discriminate]. cbn in Hs.
  destruct (score_papers w idea embs (S idx) papers) as [rest|] eqn:Hrest;
    [|discriminate].
  cbn in Hs. injection Hs as <-.
  destruct i as [|i].
  - injection Hi as <-. exists e0. by rewrite Nat.add_0_r.
  - cbn in Hi. destruct (IH _ _ Hrest _ _ Hi) as (e & He & Hsc).
    exists e. split; [|done]. by rewrite <- Nat.add_succ_comm.
Qed.

Lemma score_papers_enough w idea embs papers : ∀ idx,
  (idx + length papers ≤ length embs)%nat →
  ∃ scored, score_papers w idea embs idx papers = Ok scored.
Proof.
  induction papers as [|q papers IH]; intros idx Hlen; [by eexists|].
  cbn [score_papers]. unfold index. cbn in Hlen.
  destruct (lookup_lt_is_Some_2 embs idx) as [e ->]; [lia|]. cbn.
  destruct (IH (S idx)) as [rest ->]; [lia|]. by eexists.
Qed.

Lemma score_papers_short w idea embs papers : ∀ idx,
  (idx ≤ length embs)%nat → (length embs < idx + length papers)%nat →
  score_papers w idea embs idx papers = Err IndexError.
Proof.
  induction papers as [|q papers IH]; intros idx Hidx Hlen;
    [cbn in Hlen; lia|].
  cbn [score_papers]. unfold index. cbn in Hlen.
  destruct (embs !! idx) as [e|] eqn:He; [|done]. cbn.
  apply lookup_lt_Some in He. rewrite IH; [done|lia|lia].
Qed.

(** X10. The scoring loop pairs the papers with the embeddings by position:
    the i-th scored item is the i-th paper with the cosine of the idea
    embedding and the i-th paper embedding.  It succeeds exactly when there
    are at least as many embeddings as papers, and raises [IndexError]
    otherwise. *)
Theorem score_papers_by_position (w : world) (idea_embedding : vec)
    (paper_embeddings : list vec) (papers : list pyval) :
  ((length papers ≤ length paper_embeddings)%nat →
     ∃ scored,
       score_papers w idea_embedding paper_embeddings 0 papers = Ok scored ∧
       length scored = length papers ∧
       ∀ i p, papers !! i = Some p →
         ∃ e, paper_embeddings !! i = Some e ∧
              scored !! i = Some (cos_sim w idea_embedding e, p)) ∧
  ((length paper_embeddings < length papers)%nat →
     score_papers w idea_embedding paper_embeddings 0 papers
     = Err IndexError).
Proof.
  split.
  - intros Hlen.
    destruct (score_papers_enough w idea_embedding paper_embeddings papers 0)
      as [scored Hs]; [lia|].
    exists scored. split; [done|]. split.
    + rewrite <- (score_papers_order _ _ _ _ _ _ Hs). by rewrite length_fmap.
    + intros i p Hi.
      by destruct (score_papers_lookup _ _ _ _ _ _ Hs _ _ Hi) as (e & ? & ?);
        exists e.
  - intros Hlen. apply score_papers_short; lia.
Qed.

Lemma score_papers_by_position_witness :
  (length [PStr "a"; PStr "b"] ≤ length [[1%Q]; [2%Q]; [3%Q]])%nat ∧
  ∃ scored,
    score_papers offline_world [1%Q] [[1%Q]; [2%Q]; [3%Q]] 0
                 [PStr "a"; PStr "b"] = Ok scored ∧
    length scored = 2%nat.
Proof.
  assert (H : (length [PStr "a"; PStr "b"]
               ≤ length [[1%Q]; [2%Q]; [3%Q]])%nat) by (cbn; lia).
  split; [exact H|].
  destruct (proj1 (score_papers_by_position offline_world [1%Q]
                     [[1%Q]; [2%Q]; [3%Q]] [PStr "a"; PStr "b"]) H)
    as (scored & Hs & Hl & _).
  exists scored. by split.
Defined.

(** *** Changing the year range *)

Lemma silent_ret {A} (a : A) : silent (mret a).
Proof. by intros s r s' [= _ <-]. Qed.

Lemma silent_lift {A} (r : result A) : silent (lift r).
Proof. by intros s r' s' [= _ <-]. Qed.

Lemma silent_bind {A B} (m : M A) (f : A → M B) :
  silent m → (∀ x, silent (f x)) → silent (m ≫= f).
Proof.
  intros Hm Hf s r s'. unfold mbind, M_bind.
  destruct (m s) as [[x|e] s1] eqn:Hms.
  - intros Hfx. rewrite (Hf _ _ _ _ Hfx). by eapply Hm.
  - intros [= _ <-]. by eapply Hm.
Qed.

Lemma silent_embed_texts w texts : silent (embed_texts w texts).
Proof.
  intros s r s'. unfold embed_texts, cached, embed_texts_fn.
  destruct (cache_embed s !! texts); by intros [= _ <-].
Qed.

Lemma no_request_after_silent {A B} (first : M A) (second : M B) :
  silent second → no_request_after first second.
Proof. intros Hs s r1 s1 _ s1' r2 s2 _ Hrun. by eapply Hs. Qed.

Lemma no_request_after_bind {A B C} (m : M A) (f : A → M B) (g : A → M C) :
  replayable m → (∀ x, replayable (f x)) →
  (∀ x, no_request_after (f x) (g x)) →
  no_request_after (m ≫= f) (m ≫= g).
Proof.
  intros Hm Hf Hfg s r1 s1 Hrun s1' r2 s2 Hle Hrun2.
  unfold mbind, M_bind in Hrun, Hrun2.
  destruct (m s) as [[x|e] sm] eqn:Hms.
  - destruct (Hm _ _ _ Hms) as [_ Hreplay].
    destruct (Hf x _ _ _ Hrun) as [Hgrow _].
    rewrite (Hreplay s1') in Hrun2 by (by eapply caches_le_trans).
    by eapply Hfg.
  - injection Hrun as <- <-.
    destruct (Hm _ _ _ Hms) as [_ Hreplay].
    rewrite (Hreplay s1' Hle) in Hrun2. by injection Hrun2 as _ <-.
Qed.

Ltac solve_replayable :=
  repeat first
    [ apply replayable_ret
    | apply replayable_lift
    | apply replayable_embed_texts
    | apply replayable_search_semantic_scholar
    | apply replayable_search_arxiv
    | apply replayable_search_pubmed
    | apply replayable_bind; [|intros ?]
    | match goal with
      | |- replayable (match ?x with _ => _ end) => destruct x
      end ].

Ltac solve_silent :=
  repeat first
    [ apply silent_ret
    | apply silent_lift
    | apply silent_embed_texts
    | apply silent_bind; [|intros ?]
    | match goal with
      | |- silent (match ?x with _ => _ end) => destruct x
      end ].

(** X11. The adapter caches are keyed by the query and the number of results
    only.  After a run of [main], a further run in the same session with
    the same idea and the same number of results per source but another
    year range sends no request at all: the three sources are read from the
    caches and only the filter, the ranking and the display are redone. *)
Theorem year_range_change_sends_nothing (w : world) (user_input : string)
    (start_year end_year start_year' end_year' num_results : Z)
    (s s1 s2 : session) (r1 r2 : result outcome) :
  main w user_input start_year end_year num_results s = (r1, s1) →
  main w user_input start_year' end_year' num_results s1 = (r2, s2) →
  net_log s2 = net_log s1.
Proof.
  intros Hrun1 Hrun2.
  cut (no_request_after
         (main w user_input start_year end_year num_results)
         (main w user_input start_year' end_year' num_results)).
  { intros H. exact (H _ _ _ Hrun1 _ _ _ (caches_le_refl s1) Hrun2). }
  clear. unfold main.
  destruct (negb (truthy (PStr user_input)));
    [apply no_request_after_silent, silent_ret|].
  destruct (negb (truthy (PStr (strip user_input))));
    [apply no_request_after_silent, silent_ret|].
  apply no_request_after_bind; [solve_replayable|intros ?; solve_replayable|].
  intros embs.
  apply no_request_after_bind; [solve_replayable|intros ?; solve_replayable|].
  intros idea.
  apply no_request_after_bind; [solve_replayable|intros ?; solve_replayable|].
  intros ss.
  apply no_request_after_bind; [solve_replayable|intros ?; solve_replayable|].
  intros arxiv.
  apply no_request_after_bind; [solve_replayable|intros ?; solve_replayable|].
  intros pubmed.
  apply no_request_after_silent. solve_silent.
Qed.

Lemma year_range_change_sends_nothing_witness :
  let w := pubmed_world (article_set [good_article]) in
  let first := main w "deep learning" 2020 2024 20 empty_session in
  let second := main w "deep learning" 1990 2000 20 first.2 in
  length (net_log first.2) = 4%nat ∧ net_log second.2 = net_log first.2.
Proof.
  intros w first second. split; [vm_compute; reflexivity|].
  exact (year_range_change_sends_nothing w "deep learning" 2020 2024 1990 2000
           20 empty_session first.2 second.2 first.1 second.1
           (surjective_pairing first) (surjective_pairing second)).
Defined.

(** X19. The two year inputs are not checked against each other.  With a
    start year after the end year no record can pass the filter, so [main]
    never shows results: it ends with the no-results warning, one of the
    blank-input outcomes, or an exception. *)
Theorem inverted_range_shows_nothing (w : world) (user_input : string)
    (start_year end_year num_results : Z) (s : session) :
  end_year < start_year →
  ∀ scored_papers entries,
    (main w user_input start_year end_year num_results s).1
    ≠ Ok (Shown scored_papers entries).
Proof.
  intros Hinv scored_papers entries Hrun.
  destruct (main w user_input start_year end_year num_results s)
    as [r s'] eqn:Hmain.
  cbn in Hrun. subst r.
  apply main_shown_inv in Hmain
    as (all_papers & filtered & idea & pembs & scored & Hns & Hf & Hne & _).
  destruct filtered as [|p filtered]; [done|].
  destruct (filtered_papers_elem _ _ _ _ p Hf) as [_ Hk]; [left|].
  apply keep_paper_true in Hk as (fields & year & _ & _ & _ & _ & Hr).
  apply year_between_ordered in Hr. lia.
Qed.

Lemma inverted_range_shows_nothing_witness :
  2020 < 2024 ∧
  match (main (pubmed_world (article_set [good_article]))
              "deep learning" 2024 2020 20 empty_session).1 with
  | Ok (Shown _ _) => False
  | _ => True
  end.
Proof.
  assert (H : 2020 < 2024) by lia.
  split; [exact H|].
  pose proof (inverted_range_shows_nothing
                (pubmed_world (article_set [good_article]))
                "deep learning" 2024 2020 20 empty_session H) as Hno.
  destruct (main (pubmed_world (article_set [good_article]))
                 "deep learning" 2024 2020 20 empty_session).1
    as [[| | |scored_papers entries]|e]; try exact I.
  by apply (Hno scored_papers entries).
Defined.

(** *** What an entry shows *)

Lemma take_chars_length n s : (String.length (take_chars n s) ≤ n)%nat.
Proof.
  revert s. induction n as [|n IH]; intros s; [done|].
  destruct s as [|c s]; cbn; [lia|]. specialize (IH s). lia.
Qed.

Lemma render_entry_strings w keywords similarity fields title abstract e :
  keywords ≠ [] →
  fields !! "title" = Some (PStr title) →
  fields !! "abstract" = Some (PStr abstract) →
  render_entry w keywords (similarity, PDict fields) = Ok e →
  entry_title e = highlight_keywords title keywords ∧
  entry_abstract e =
    take_chars 1000 (highlight_keywords abstract keywords) +:+ "...".
Proof.
  intros Hk Ht Ha. unfold render_entry, py_getitem. rewrite Ht, Ha.
  destruct keywords as [|k ks]; [done|].
  unfold highlight_value, slice_1000, mbind, result_bind.
  destruct (fields !! "url") as [url|]; [|discriminate].
  destruct (fields !! "year") as [year|]; [|discriminate].
  intros He. injection He as <-. split; reflexivity.
Qed.

(** X20. For a ranked paper that can be displayed, the entry shows the
    whole highlighted title, and of the highlighted abstract the first 1000
    characters followed by three dots; the dots are added whether or not
    anything was cut, and the cut is made in the highlighted text, markup
    included.  The abstract shown is at most 1003 characters long. *)
Theorem entry_shows_cut_abstract (w : world) (keywords : list string)
    (similarity : Q) (fields : gmap string pyval) (title abstract : string)
    (e : entry) :
  keywords ≠ [] →
  fields !! "title" = Some (PStr title) →
  fields !! "abstract" = Some (PStr abstract) →
  render_entry w keywords (similarity, PDict fields) = Ok e →
  entry_title e = highlight_keywords title keywords ∧
  entry_abstract e =
    take_chars 1000 (highlight_keywords abstract keywords) +:+ "..." ∧
  (String.length (entry_abstract e) ≤ 1003)%nat.
Proof.
  intros Hk Ht Ha He.
  destruct (render_entry_strings _ _ _ _ _ _ _ Hk Ht Ha He) as [H1 H2].
  split; [exact H1|]. split; [exact H2|].
  rewrite H2, string_length_app.
  pose proof (take_chars_length 1000 (highlight_keywords abstract keywords))
    as Hlen.
  change (String.length "...") with 3%nat. lia.
Qed.

Lemma entry_shows_cut_abstract_witness :
  ∃ e,
    render_entry offline_world ["deep"]
      (1%Q, PDict {[ "title" := PStr "Deep X"; "abstract" := PStr "short";
                     "url" := PStr "u"; "year" := PInt 2021 ]}) = Ok e ∧
    entry_abstract e = "short...".
Proof.
  eassert (Hr : render_entry offline_world ["deep"]
      (1%Q, PDict {[ "title" := PStr "Deep X"; "abstract" := PStr "short";
                     "url" := PStr "u"; "year" := PInt 2021 ]}) = Ok _)
    by (vm_compute; reflexivity).
  eexists. split; [exact Hr|].
  assert (Hk : ["deep"] ≠ ([] : list string)) by discriminate.
  assert (Ht : ({[ "title" := PStr "Deep X"; "abstract" := PStr "short";
                   "url" := PStr "u"; "year" := PInt 2021 ]}
                  : gmap string pyval) !! "title" = Some (PStr "Deep X"))
    by (vm_compute; reflexivity).
  assert (Ha : ({[ "title" := PStr "Deep X"; "abstract" := PStr "short";
                   "url" := PStr "u"; "year" := PInt 2021 ]}
                  : gmap string pyval) !! "abstract" = Some (PStr "short"))
    by (vm_compute; reflexivity).
  rewrite (proj1 (proj2 (entry_shows_cut_abstract _ _ _ _ _ _ _
                           Hk Ht Ha Hr))).
  vm_compute. reflexivity.
Defined.

(** ** Further properties of the records *)

Lemma never_raises_adapter {V} `{Countable K}
    (get : session → gmap K V) set key (body : M V) (fallback : V) s :
  ∃ v s', cached get set key (try_except body (λ _, mret fallback)) s
          = (Ok v, s').
Proof. apply cached_ok, try_except_ok. Qed.

(** X12. The Semantic Scholar adapter returns whatever the reply holds under
    [data] without looking at it.  When that value is not a list (for
    instance [null]), the adapter itself succeeds, and [main] then raises
    [TypeError] where it concatenates the three results. *)
Theorem non_list_data_raises (w : world) (user_input : string)
    (start_year end_year num_results : Z) (s s1 : session)
    (idea_embedding : vec) (rest : list vec) (reply : response)
    (fields : gmap string pyval) (data : pyval) :
  truthy (PStr (strip user_input)) = true →
  embed_texts w [strip user_input] s = (Ok (idea_embedding :: rest), s1) →
  cache_semantic_scholar s1 !! (strip user_input, num_results) = None →
  http_get w (length (net_log s1))
           (semantic_scholar_request (strip user_input) num_results)
    = Ok reply →
  failed_reply (Ok reply) = false →
  json_loads w (body reply) = Some (PDict fields) →
  fields !! "data" = Some data →
  (∀ items, data ≠ PList items) →
  (search_semantic_scholar w (strip user_input) num_results s1).1 = Ok data ∧
  (main w user_input start_year end_year num_results s).1 = Err TypeError.
Proof.
  intros Hq Hembed Hmiss Hget Hst Hjson Hdata Hnl.
  assert (Hfn : search_semantic_scholar_fn w (strip user_input) num_results s1
                = (Ok data, log_request (semantic_scholar_request
                                           (strip user_input) num_results) s1)).
  { unfold search_semantic_scholar_fn, try_except,
      search_semantic_scholar_try, mbind, M_bind.
    rewrite requests_get_run.
    change {| req_url := _; req_params := _ |}
      with (semantic_scholar_request (strip user_input) num_results).
    rewrite Hget. unfold lift, raise_for_status, response_json.
    cbn [failed_reply] in Hst. rewrite Hst, Hjson. cbn. by rewrite Hdata. }
  pose proof (cached_miss cache_semantic_scholar set_cache_semantic_scholar
                _ _ _ _ _ Hmiss Hfn) as Hss.
  fold (search_semantic_scholar w (strip user_input) num_results) in Hss.
  split; [by rewrite Hss|].
  unfold main. rewrite (strip_input_truthy _ Hq), Hq. cbn [negb].
  unfold mbind, M_bind. rewrite Hembed. cbn [lift index lookup].
  rewrite Hss.
  match goal with
  | |- context [search_arxiv w ?q ?n ?st] =>
      destruct (never_raises_adapter cache_arxiv set_cache_arxiv (q, n)
                  (search_arxiv_try w q n) [] st) as (arxiv & s3 & Ha);
      fold (search_arxiv_fn w q n) in Ha; fold (search_arxiv w q n) in Ha;
      rewrite Ha
  end.
  match goal with
  | |- context [search_pubmed w ?q ?n ?st] =>
      destruct (never_raises_adapter cache_pubmed set_cache_pubmed (q, n)
                  (search_pubmed_try w q n) [] st) as (pubmed & s4 & Hp);
      fold (search_pubmed_fn w q n) in Hp; fold (search_pubmed w q n) in Hp;
      rewrite Hp
  end.
  destruct data; try done. by destruct (Hnl items).
Qed.

Lemma non_list_data_raises_witness :
  (main null_data_world "deep learning" 2020 2024 20 empty_session).1
  = Err TypeError.
Proof.
  eassert (Hembed : embed_texts null_data_world [strip "deep learning"]
                      empty_session = (Ok (_ :: _), _))
    by (vm_compute; reflexivity).
  refine (proj2 (non_list_data_raises null_data_world "deep learning"
                   2020 2024 20 empty_session _ _ _
                   {| status_code := 200; body := "" |}
                   {[ "data" := PNone ]} PNone
                   eq_refl Hembed _ _ _ _ _ _)).
  - reflexivity.
  - reflexivity.
  - reflexivity.
  - reflexivity.
  - reflexivity.
  - discriminate.
Defined.

(** *** arXiv entries *)

Lemma arxiv_entry_complete_ok w entry :
  arxiv_entry_complete w entry = true →
  ∃ p, arxiv_entry w entry = Ok p ∧ arxiv_record_from w entry p.
Proof.
  unfold arxiv_entry_complete, arxiv_entry, arxiv_record_from, has_text,
    text_attr.
  destruct (find_atom "title" entry) as [t|]; [|done].
  destruct (text_of t) as [tt|]; [|done].
  destruct (find_atom "summary" entry) as [a|]; [|done].
  destruct (text_of a) as [ta|]; [|done].
  destruct (find_atom "id" entry) as [u|]; [|done].
  destruct (text_of u) as [tu|]; [|done].
  destruct (find_atom "published" entry) as [p|]; [|done].
  destruct (text_of p) as [tp|]; [|done]. cbn.
  destruct (strptime_year w tp) as [y|] eqn:Hy; [|done]. intros _.
  eexists. split; [done|]. by exists tt, ta, tu, tp, y.
Qed.

Lemma arxiv_entry_incomplete_err w entry :
  arxiv_entry_complete w entry = false → ∃ e, arxiv_entry w entry = Err e.
Proof.
  unfold arxiv_entry_complete, arxiv_entry, has_text, text_attr.
  destruct (find_atom "title" entry) as [t|]; [|by eexists].
  destruct (text_of t) as [tt|]; [|by eexists].
  destruct (find_atom "summary" entry) as [a|]; [|by eexists].
  destruct (text_of a) as [ta|]; [|by eexists].
  destruct (find_atom "id" entry) as [u|]; [|by eexists].
  destruct (text_of u) as [tu|]; [|by eexists].
  destruct (find_atom "published" entry) as [p|]; [|by eexists].
  destruct (text_of p) as [tp|]; [|by eexists]. cbn.
  destruct (strptime_year w tp) as [y|]; [done|]. by eexists.
Qed.


Lemma mapM_arxiv_complete w entries :
  Forall (λ e, arxiv_entry_complete w e = true) entries →
  ∃ papers, mapM (arxiv_entry w) entries = Ok papers ∧
            Forall2 (arxiv_record_from w) entries papers.
Proof.
  induction 1 as [|e entries He _ (papers & Hp & Hs)].
  - exists []. by split.
  - destruct (arxiv_entry_complete_ok w e He) as (p & Hr & Hrec).
    eexists. cbn [mapM]. rewrite Hr, Hp. cbn. split; [done|].
    by constructor.
Qed.

Lemma mapM_err {A B} (f : A → result B) l x e :
  x ∈ l → f x = Err e → ∃ e', mapM f l = Err e'.
Proof.
  intros Hin Hx. induction Hin as [x l|x y l Hin IH]; cbn.
  - rewrite Hx. by eexists.
  - destruct (f y); cbn; [|by eexists].
    destruct (IH Hx) as [e' ->]. by eexists.
Qed.

Lemma search_arxiv_try_run w query max_results s reply root :
  http_get w (length (net_log s)) (arxiv_request query max_results)
    = Ok reply →
  failed_reply (Ok reply) = false →
  xml_fromstring w (body reply) = Some root →
  search_arxiv_try w query max_results s =
  (mapM (arxiv_entry w) (findall_atom "entry" root),
   log_request (arxiv_request query max_results) s).
Proof.
  intros Hget Hst Hxml.
  unfold search_arxiv_try, mbind, M_bind. rewrite requests_get_run.
  change {| req_url := _; req_params := _ |}
    with (arxiv_request query max_results).
  rewrite Hget. unfold lift, raise_for_status, fromstring.
  cbn [failed_reply] in Hst. rewrite Hst, Hxml. cbn.
  by destruct (mapM (arxiv_entry w) (findall_atom "entry" root)).
Qed.

(** X13. The arXiv adapter is all or nothing.  On a reply that parses to a
    feed, when every entry has a title, a summary and an id with text and a
    date the parser accepts, the adapter returns one record per entry, in
    the order of the feed, holding the stripped title, summary and id and
    the year of the date.  When a single entry lacks one of these, the
    exception is caught at the adapter boundary and the adapter returns the
    empty list: the complete entries of the feed are lost as well. *)
Theorem arxiv_all_or_nothing (w : world) (root : element) (query : string)
    (max_results : Z) (s : session) (reply : response) :
  http_get w (length (net_log s)) (arxiv_request query max_results)
    = Ok reply →
  failed_reply (Ok reply) = false →
  xml_fromstring w (body reply) = Some root →
  (Forall (λ e, arxiv_entry_complete w e = true) (findall_atom "entry" root) →
   ∃ papers,
     search_arxiv_fn w query max_results s =
       (Ok papers, log_request (arxiv_request query max_results) s) ∧
     Forall2 (arxiv_record_from w) (findall_atom "entry" root) papers) ∧
  (∀ entry, entry ∈ findall_atom "entry" root →
     arxiv_entry_complete w entry = false →
     search_arxiv_fn w query max_results s =
       (Ok [], log_request (arxiv_request query max_results) s)).
Proof.
  intros Hget Hst Hxml.
  pose proof (search_arxiv_try_run _ _ _ _ _ _ Hget Hst Hxml) as Htry.
  split.
  - intros (papers & Hp & Hrec)%mapM_arxiv_complete.
    exists papers. split; [|done].
    unfold search_arxiv_fn, try_except. by rewrite Htry, Hp.
  - intros entry Hin Hinc.
    destruct (arxiv_entry_incomplete_err w entry Hinc) as [e He].
    destruct (mapM_err _ _ _ _ Hin He) as [e' He'].
    apply try_except_caught with e'. by rewrite Htry, He'.
Qed.

Lemma arxiv_all_or_nothing_witness :
  (∃ papers,
     (search_arxiv_fn
        (arxiv_world (Element (atom "feed") None
                        (take 2 (children_of arxiv_feed))))
        "deep learning" 20 empty_session).1 = Ok papers ∧
     length papers = 1%nat) ∧
  (search_arxiv_fn (arxiv_world arxiv_feed) "deep learning" 20
                   empty_session).1 = Ok [].
Proof.
  split.
  - destruct (proj1 (arxiv_all_or_nothing
                       (arxiv_world (Element (atom "feed") None
                                       (take 2 (children_of arxiv_feed))))
                       (Element (atom "feed") None
                          (take 2 (children_of arxiv_feed)))
                       "deep learning" 20 empty_session
                       {| status_code := 200; body := "" |}
                       eq_refl eq_refl eq_refl))
      as (papers & Hrun & Hrec).
    + vm_compute. repeat constructor.
    + exists papers. rewrite Hrun. split; [done|].
      apply Forall2_length in Hrec. rewrite <- Hrec. reflexivity.
  - assert (Hin : Element (atom "entry") None
         [Element (atom "id") (Some "http://arxiv.org/abs/2101.00002v1") [];
          Element (atom "published") (Some "2021-01-02T00:00:00Z") [];
          Element (atom "title") (Some "No summary") []]
        ∈ findall_atom "entry" arxiv_feed).
    { vm_compute. right. left. }
    rewrite (proj2 (arxiv_all_or_nothing (arxiv_world arxiv_feed) arxiv_feed
                      "deep learning" 20 empty_session
                      {| status_code := 200; body := "" |}
                      eq_refl eq_refl eq_refl) _ Hin eq_refl).
    reflexivity.
Defined.

(** *** Records of the two XML adapters and the filter *)






(** *** What the filter keeps *)

Lemma keep_paper_true_iff start_year end_year p :
  keep_paper start_year end_year p = Ok true ↔
  ∃ fields abstract year,
    p = PDict fields ∧
    fields !! "abstract" = Some abstract ∧ truthy abstract = true ∧
    fields !! "year" = Some year ∧ truthy year = true ∧
    year_between start_year end_year year.
Proof.
  split.
  - intros (fields & year & -> & Ha & Hy & Ht & Hr)%keep_paper_true.
    destruct (fields !! "abstract") as [abstract|] eqn:Habs; [|done].
    by exists fields, abstract, year.
  - intros (fields & abstract & year & -> & Ha & Hta & Hy & Hty & Hr).
    apply year_between_iff in Hr as [Hlo Hhi].
    unfold keep_paper, py_get, py_get_default, py_getitem. cbn.
    rewrite Ha, Hy. cbn. rewrite Hta, Hty. cbn. by rewrite Hlo.
Qed.

Lemma filtered_papers_filter start_year end_year all_papers : ∀ out,
  filtered_papers start_year end_year all_papers = Ok out →
  out = List.filter (kept start_year end_year) all_papers.
Proof.
  induction all_papers as [|p rest IH]; intros out.
  - by intros [= <-].
  - intros (b & out' & Hb & Hrest & ->)%filtered_papers_cons.
    cbn [List.filter]. unfold kept at 1. rewrite Hb.
    rewrite <- (IH _ Hrest). by destruct b.
Qed.

(** X18. The aggregation keeps exactly the records that pass the test, in
    the order Semantic Scholar, arXiv, PubMed and, within a source, in the
    order received; a record that two sources return is kept twice.  A
    record passes exactly when it is a [dict] with a truthy abstract and a
    year that is a non-zero number (an integer, a fractional number or a
    boolean) with [start_year <= year <= end_year], both bounds included. *)
Theorem aggregation_keeps_all_in_range (start_year end_year : Z)
    (ss_papers arxiv_records pubmed_records out : list pyval)
    (all_papers : list pyval) :
  concat_papers (PList ss_papers) arxiv_records pubmed_records
    = Ok all_papers →
  filtered_papers start_year end_year all_papers = Ok out →
  out = List.filter (kept start_year end_year) ss_papers
        ++ List.filter (kept start_year end_year) arxiv_records
        ++ List.filter (kept start_year end_year) pubmed_records ∧
  ∀ p, kept start_year end_year p = true ↔
    ∃ fields abstract year,
      p = PDict fields ∧
      fields !! "abstract" = Some abstract ∧ truthy abstract = true ∧
      fields !! "year" = Some year ∧ truthy year = true ∧
      year_between start_year end_year year.
Proof.
  intros [= <-] Hout. split.
  - rewrite (filtered_papers_filter _ _ _ _ Hout).
    by rewrite !List.filter_app.
  - intros p. rewrite <- keep_paper_true_iff. unfold kept.
    destruct (keep_paper start_year end_year p) as [[]|]; split; congruence.
Qed.

Lemma aggregation_keeps_all_in_range_witness :
  ∃ out,
    filtered_papers 2020 2024
      [sample_paper (PStr "a") (PInt 2020);
       sample_paper (PStr "b") (PInt 2019);
       sample_paper (PStr "a") (PInt 2020);
       sample_paper (PStr "c") (PFloat 4656605466468548608)] = Ok out ∧
    length out = 3%nat.
Proof.
  eassert (Hout : filtered_papers 2020 2024
      [sample_paper (PStr "a") (PInt 2020);
       sample_paper (PStr "b") (PInt 2019);
       sample_paper (PStr "a") (PInt 2020);
       sample_paper (PStr "c") (PFloat 4656605466468548608)] = Ok _)
    by (vm_compute; reflexivity).
  eexists. split; [exact Hout|].
  rewrite (proj1 (aggregation_keeps_all_in_range 2020 2024
                    [sample_paper (PStr "a") (PInt 2020)]
                    [sample_paper (PStr "b") (PInt 2019);
                     sample_paper (PStr "a") (PInt 2020)]
                    [sample_paper (PStr "c") (PFloat 4656605466468548608)]
                    _ _ eq_refl Hout)).
  vm_compute. reflexivity.
Defined.

(** ** Further properties of the highlighter *)

Lemma chars_app a b : chars (a +:+ b) = chars a ++ chars b.
Proof.
  unfold chars. induction a as [|c a IH]; [done|]. cbn. by rewrite IH.
Qed.

Lemma chars_length s : length (chars s) = String.length s.
Proof. unfold chars. induction s as [|c s IH]; [done|]. cbn. by rewrite IH. Qed.

Lemma match_literal_split word : ∀ s m r,
  match_literal word s = Some (m, r) → s = m +:+ r.
Proof.
  induction word as [|a word IH]; intros s m r.
  - cbn. by intros [= <- <-].
  - destruct s as [|c s]; [done|]. cbn.
    destruct (eqb_ci a c); [|done].
    destruct (match_literal word s) as [[m' r']|] eqn:Hm; [|done].
    intros [= <- <-]. cbn. f_equal. by apply IH.
Qed.

Lemma match_at_split word prev s m :
  match_at word prev s = Some m → ∃ r, s = m +:+ r.
Proof.
  unfold match_at. destruct (word_boundary _ _); [|done].
  destruct (match_literal word s) as [[m' r]|] eqn:Hm; [|done].
  destruct (word_boundary _ _); [|done]. intros [= <-].
  exists r. by eapply match_literal_split.
Qed.

(** One pass only inserts characters. *)
Lemma re_sub_from_sublist word (n : nat) : ∀ s prev,
  (String.length s ≤ n)%nat →
  chars s `sublist_of` chars (re_sub_from word 0 prev s).
Proof.
  induction n as [|n IH]; intros s prev Hlen.
  - destruct s; [|cbn in Hlen; lia]. apply sublist_nil_l.
  - destruct s as [|c s]; [apply sublist_nil_l|].
    cbn in Hlen. cbn [re_sub_from].
    destruct (match_at word prev (String c s)) as [m|] eqn:Hm.
    + destruct (match_at_split _ _ _ _ Hm) as [r Hs].
      destruct m as [|c' m]; cbn [String.length].
      * rewrite chars_app. apply sublist_inserts_l.
        apply sublist_skip. apply IH. lia.
      * cbn in Hs. injection Hs as <- ->.
        rewrite re_sub_from_skip.
        change (String c (m +:+ r)) with (String c m +:+ r).
        unfold mark. rewrite !chars_app, <- !app_assoc.
        apply sublist_inserts_l. apply sublist_app; [done|].
        apply sublist_inserts_l. apply IH.
        rewrite string_length_app in Hlen. lia.
    + apply sublist_skip. apply IH. lia.
Qed.

(** X15. Highlighting only inserts markup: for every text and every list of
    keywords (empty keywords and keywords with punctuation included), the
    characters of the text all survive, in order, in the result; nothing is
    deleted or changed, and the result is at least as long as the text. *)
Theorem highlight_only_inserts (text : string) (keywords : list string) :
  chars text `sublist_of` chars (highlight_keywords text keywords) ∧
  (String.length text ≤ String.length (highlight_keywords text keywords))%nat.
Proof.
  assert (H : chars text `sublist_of`
              chars (highlight_keywords text keywords)).
  { unfold highlight_keywords. revert text.
    induction keywords as [|w keywords IH]; intros text; [done|].
    cbn [fold_left]. etrans; [|apply IH].
    unfold re_sub_word. by eapply re_sub_from_sublist. }
  split; [done|].
  apply sublist_length in H. by rewrite !chars_length in H.
Qed.

Lemma occurs_ci_here word s :
  occurs_ci word s = false → match_literal word s = None.
Proof. destruct s; cbn; by destruct (match_literal word _). Qed.

Lemma occurs_ci_tail word c s :
  occurs_ci word (String c s) = false → occurs_ci word s = false.
Proof.
  cbn [occurs_ci]. by destruct (match_literal word (String c s)).
Qed.

Lemma match_at_no_literal word prev s :
  match_literal word s = None → match_at word prev s = None.
Proof. unfold match_at. intros ->. by destruct (word_boundary _ _). Qed.

Lemma re_sub_from_absent word s : ∀ prev,
  occurs_ci word s = false → re_sub_from word 0 prev s = s.
Proof.
  induction s as [|c s IH]; intros prev Hocc.
  - cbn. by rewrite match_at_no_literal by (by apply occurs_ci_here).
  - cbn [re_sub_from].
    rewrite match_at_no_literal by (by apply occurs_ci_here).
    f_equal. apply IH. by eapply occurs_ci_tail.
Qed.

(** X16. A text in which no keyword occurs, compared without regard to case
    and to word boundaries, is returned unchanged, whatever the keywords
    are. *)
Theorem highlight_absent_keywords (text : string) (keywords : list string) :
  forallb (λ w, negb (occurs_ci w text)) keywords = true →
  highlight_keywords text keywords = text.
Proof.
  unfold highlight_keywords.
  induction keywords as [|w keywords IH]; [done|].
  cbn [forallb fold_left]. intros [Hw Hk]%andb_true_iff.
  apply negb_true_iff in Hw.
  unfold re_sub_word. rewrite re_sub_from_absent by done. by apply IH.
Qed.

Lemma highlight_absent_keywords_witness :
  forallb (λ w, negb (occurs_ci w "Graph neural networks"))
          ["deep"; "c++"] = true ∧
  highlight_keywords "Graph neural networks" ["deep"; "c++"]
  = "Graph neural networks".
Proof.
  assert (H : forallb (λ w, negb (occurs_ci w "Graph neural networks"))
                      ["deep"; "c++"] = true) by (vm_compute; reflexivity).
  split; [exact H|].
  exact (highlight_absent_keywords _ _ H).
Defined.

(** ** The table for download *)

Lemma export_row_displayable similarity p :
  displayable p →
  ∃ r, export_row (similarity, p) = Ok r ∧ row_similarity r = similarity ∧
       py_getitem p "title" = Ok (row_title r) ∧
       py_getitem p "abstract" = Ok (row_abstract r) ∧
       py_getitem p "year" = Ok (row_year r) ∧
       py_getitem p "url" = Ok (row_url r).
Proof.
  intros (fields & title & abstract & url & year & -> & Ht & Ha & Hu & Hy).
  unfold export_row, py_getitem. rewrite Ht, Ha, Hy, Hu. cbn.
  by eexists.
Qed.

Lemma export_rows_displayable scored_papers :
  Forall (λ item, displayable item.2) scored_papers →
  ∃ rows, export_rows scored_papers = Ok rows ∧
    Forall2 (λ item r,
               row_similarity r = item.1 ∧
               py_getitem item.2 "title" = Ok (row_title r) ∧
               py_getitem item.2 "abstract" = Ok (row_abstract r) ∧
               py_getitem item.2 "year" = Ok (row_year r) ∧
               py_getitem item.2 "url" = Ok (row_url r))
            scored_papers rows.
Proof.
  unfold export_rows.
  induction 1 as [|[similarity p] rest Hp _ (rows & Hrows & Hall)].
  - exists []. split; [done|constructor].
  - destruct (export_row_displayable similarity p Hp) as (r & Hr & Hprops).
    exists (r :: rows). cbn [mapM]. rewrite Hr, Hrows. split; [done|].
    by constructor.
Qed.

(** X17. Whenever [main] shows results, building the table for download
    raises nothing: it has one row per ranked paper, in rank order, each row
    carrying the title, abstract, year and url of its paper and its
    similarity, so the similarities in the table never increase from one
    row to the next. *)
Theorem export_follows_ranking (w : world) (user_input : string)
    (start_year end_year num_results : Z) (s s' : session)
    (scored_papers : list scored) (entries : list entry) :
  main w user_input start_year end_year num_results s
    = (Ok (Shown scored_papers entries), s') →
  ∃ rows,
    export_rows scored_papers = Ok rows ∧
    length rows = length scored_papers ∧
    (∀ i similarity p r,
       scored_papers !! i = Some (similarity, p) → rows !! i = Some r →
       row_similarity r = similarity ∧
       py_getitem p "title" = Ok (row_title r) ∧
       py_getitem p "abstract" = Ok (row_abstract r) ∧
       py_getitem p "year" = Ok (row_year r) ∧
       py_getitem p "url" = Ok (row_url r)) ∧
    (∀ i r1 r2, rows !! i = Some r1 → rows !! S i = Some r2 →
       (row_similarity r2 <= row_similarity r1)%Q).
Proof.
  intros (all_papers & filtered & idea & pembs & scored & Hns & Hf & Hne
          & Hs & -> & Hr)%main_shown_inv.
  apply mapM_Forall2 in Hr.
  assert (Hdisp : Forall (λ item, displayable item.2) (rank_papers scored)).
  { apply Forall_forall. intros [similarity p] Hin.
    apply list_elem_of_lookup in Hin as [i Hi].
    destruct (Forall2_lookup_l _ _ _ _ _ Hr Hi) as (e & _ & He).
    eapply render_entry_displayable; [|exact He].
    by apply query_keywords_nonempty. }
  destruct (export_rows_displayable _ Hdisp) as (rows & Hrows & Hall).
  exists rows. split; [done|]. split; [symmetry; by eapply Forall2_length|].
  split.
  - intros i similarity p r Hi Hri.
    exact (Forall2_lookup_lr _ _ _ _ _ _ Hall Hi Hri).
  - intros i r1 r2 H1 H2.
    destruct (Forall2_lookup_r _ _ _ _ _ Hall H1) as (item1 & Hi1 & Hs1 & _).
    destruct (Forall2_lookup_r _ _ _ _ _ Hall H2) as (item2 & Hi2 & Hs2 & _).
    rewrite Hs1, Hs2.
    exact (StronglySorted_adjacent _ _ _ _ _
             (list_sort_reverse_sorted fst scored) Hi1 Hi2).
Qed.

Lemma export_follows_ranking_witness :
  match (main (pubmed_world (article_set [good_article; good_article]))
              "deep learning" 2020 2024 20 empty_session).1 with
  | Ok (Shown scored_papers _) =>
      ∃ rows, export_rows scored_papers = Ok rows ∧
              length rows = length scored_papers
  | _ => False
  end.
Proof.
  assert (Hshown :
    match (main (pubmed_world (article_set [good_article; good_article]))
                "deep learning" 2020 2024 20 empty_session).1 with
    | Ok (Shown _ _) => true
    | _ => false
    end = true) by (vm_compute; reflexivity).
  destruct (main (pubmed_world (article_set [good_article; good_article]))
                 "deep learning" 2020 2024 20 empty_session)
    as [[[| | |scored_papers entries]|e] s'] eqn:Hrun;
    cbn [fst] in *; try discriminate Hshown.
  destruct (export_follows_ranking _ _ _ _ _ _ _ _ _ Hrun)
    as (rows & Hrows & Hlen & _).
  by exists rows.
Defined.

